(** * Semantic retrieval and active-learning curation of [app.py]

    A shallow embedding of the retrieval index ([knowledge_base],
    [knowledge_embeddings], [retrieve_relevant_context]), of the uncertainty
    queue and the curation pass ([ActiveLearningSystem]) and of the request
    pipeline ([generate_response]) of [src/app.py].

    Python code is modelled in a state-and-exception monad over a [world]
    that holds the module globals and the objects they alias.  The external
    libraries (SentenceTransformer, scikit-learn, the chat client, the
    sentiment pipeline, the clock, [random]) are the fields of a record of
    collaborators; each call is written on the world's [history], and a
    collaborator's answer may depend on that history, so a provider can fail
    at any call of a run.  Floats are modelled by rationals: every finite
    float is one, and float comparison agrees with [Qle] on them (NaN is left
    out of the model). *)

From Stdlib Require Import String Ascii List ZArith QArith Lia Bool Arith.
From Stdlib Require Import Sorted Permutation.
From Stdlib Require Import DecimalString.
From Stdlib Require Import Lqa.
Import ListNotations.

Local Open Scope string_scope.
Local Open Scope list_scope.
Local Open Scope Z_scope.

(** ** Exceptions and outcomes *)

(** The subclasses of Python's [Exception] that the code can meet, each with
    the text [str(e)] gives. *)
Inductive exn : Type :=
| ValueError (msg : string)
| IndexError (msg : string)
| RuntimeError (msg : string).

Definition str_exn (e : exn) : string :=
  match e with
  | ValueError m | IndexError m | RuntimeError m => m
  end.

Inductive outcome (A : Type) : Type :=
| Return (a : A)
| Raise (e : exn).

Arguments Return {A} a.
Arguments Raise {A} e.

Definition is_raise {A} (o : outcome A) : bool :=
  match o with Raise _ => true | Return _ => false end.

Definition obind {A B} (o : outcome A) (f : A -> outcome B) : outcome B :=
  match o with
  | Return a => f a
  | Raise e => Raise e
  end.

(** A list comprehension whose element expression can raise. *)
Fixpoint traverse {A B} (f : A -> outcome B) (l : list A) : outcome (list B) :=
  match l with
  | [] => Return []
  | x :: l' => obind (f x) (fun y => obind (traverse f l') (fun ys => Return (y :: ys)))
  end.

(** ** Data *)

(** A row of a NumPy float array. *)
Definition vec : Type := list Q.

(** What [sentiment_analyzer(query)[0]] holds. *)
Record sentiment_result : Type := mkSentiment {
  label : string;
  score : Q
}.

(** The fields of a fitted [KMeans] that the code reads. *)
Record kmeans_fit : Type := mkFit {
  labels_ : list nat;
  cluster_centers_ : list vec
}.

(** Calls that leave the process, and log records. *)
Inductive event : Type :=
| EncodeCall (texts : list string)
| SelfEncodeCall (texts : list string)
| CosineCall
| KMeansCall (n_clusters : Z)
| ChatCall (user_content : string)
| SentimentCall (query : string)
| ChoiceCall (n : nat)
| ClockCall
| LogError (msg : string).

(** [AnalyticsSystem]: four lists grown together by [log_interaction]. *)
Record AnalyticsSystem : Type := mkAnalytics {
  queries : list string;
  response_times : list Q;
  sentiments : list string;
  topics : list string
}.

(** The mutable state.  [knowledge_base] is ONE list object: the module
    global and [ActiveLearningSystem.knowledge_base] are the same list
    ([ActiveLearningSystem(knowledge_base)] stores the reference), so an
    in-place [extend] through either name is seen through both.
    [knowledge_embeddings] is the module global that [update_knowledge_base]
    rebinds. *)
Record world : Type := mkWorld {
  knowledge_base : list string;
  knowledge_embeddings : list vec;
  uncertain_queries : list (string * string);
  analytics_system : AnalyticsSystem;
  history : list event
}.

(** The external collaborators.  [sentence_model_encode] is the module-level
    [sentence_model]; [self_sentence_model_encode] is the second
    [SentenceTransformer] that [ActiveLearningSystem.__init__] creates.
    [argsort_ties a] is the order NumPy's [argsort] leaves among equal
    values of the array [a]: of two positions holding equal values, the one
    of lower rank comes first, and positions of equal rank come in position
    order. *)
Record collaborators : Type := mkCollab {
  sentence_model_encode : list event -> list string -> outcome (list vec);
  self_sentence_model_encode : list event -> list string -> outcome (list vec);
  cosine_similarity : list vec -> list vec -> outcome (list (list Q));
  KMeans_fit : list event -> Z -> list vec -> outcome kmeans_fit;
  linalg_norm : vec -> Q;
  chat_completions_create : list event -> string -> outcome string;
  sentiment_analyzer : list event -> string -> outcome (list sentiment_result);
  random_choice : list event -> nat -> nat;
  datetime_now : list event -> Q;
  argsort_ties : list Q -> nat -> nat
}.

(** ** The monad *)

Definition M (A : Type) : Type := world -> outcome A * world.

Definition ret {A} (a : A) : M A := fun w => (Return a, w).

Definition lift {A} (o : outcome A) : M A := fun w => (o, w).

Definition bind {A B} (m : M A) (f : A -> M B) : M B :=
  fun w =>
    match m w with
    | (Return a, w') => f a w'
    | (Raise e, w') => (Raise e, w')
    end.

(** [try: m except Exception as e: h e].  What [m] did to the world before
    it raised stays done. *)
Definition try_except {A} (m : M A) (h : exn -> M A) : M A :=
  fun w =>
    match m w with
    | (Return a, w') => (Return a, w')
    | (Raise e, w') => h e w'
    end.

Definition gets {A} (f : world -> A) : M A := fun w => (Return (f w), w).

Definition modify (f : world -> world) : M unit := fun w => (Return tt, f w).

Notation "x <- m ;; k" := (bind m (fun x => k))
  (at level 61, m at next level, right associativity).
Notation "m ;;; k" := (bind m (fun _ => k))
  (at level 61, right associativity).

Definition record (ev : event) (w : world) : world :=
  mkWorld (knowledge_base w) (knowledge_embeddings w) (uncertain_queries w)
          (analytics_system w) (history w ++ [ev]).

Definition set_knowledge_base (kb : list string) (w : world) : world :=
  mkWorld kb (knowledge_embeddings w) (uncertain_queries w)
          (analytics_system w) (history w).

Definition set_knowledge_embeddings (es : list vec) (w : world) : world :=
  mkWorld (knowledge_base w) es (uncertain_queries w)
          (analytics_system w) (history w).

Definition set_uncertain_queries (uq : list (string * string)) (w : world) : world :=
  mkWorld (knowledge_base w) (knowledge_embeddings w) uq
          (analytics_system w) (history w).

Definition set_analytics_system (a : AnalyticsSystem) (w : world) : world :=
  mkWorld (knowledge_base w) (knowledge_embeddings w) (uncertain_queries w)
          a (history w).

(** A call to a collaborator: its answer is read at the history so far, and
    the call is written on the history whether it returns or raises. *)
Definition call {A} (ev : event) (f : list event -> outcome A) : M A :=
  fun w => (f (history w), record ev w).

Definition logging_error (msg : string) : M unit :=
  modify (record (LogError msg)).

(** ** Python and NumPy primitives *)

(** [l[i]] for a non-negative index. *)
Definition getitem {A} (l : list A) (i : nat) : outcome A :=
  match nth_error l i with
  | Some x => Return x
  | None => Raise (IndexError "index out of range")
  end.

(** [l[start:]]: a negative [start] counts from the end, and both ends are
    clipped to the length. *)
Definition slice_from {A} (start : Z) (l : list A) : list A :=
  let n := Z.of_nat (length l) in
  let s := if start <? 0 then Z.max 0 (n + start) else Z.min start n in
  skipn (Z.to_nat s) l.

(** [range(n)] for an integer [n]: empty when [n <= 0]. *)
Definition range (n : Z) : list nat := seq 0 (Z.to_nat n).

(** [np.where(labels == i)[0]]: the positions holding [i], ascending. *)
Fixpoint where_eq_from (pos : nat) (labels : list nat) (i : nat) : list nat :=
  match labels with
  | [] => []
  | l :: labels' =>
      if Nat.eqb l i then pos :: where_eq_from (S pos) labels' i
      else where_eq_from (S pos) labels' i
  end.

Definition where_eq (labels : list nat) (i : nat) : list nat :=
  where_eq_from 0 labels i.

Definition Qltb (x y : Q) : bool := negb (Qle_bool y x).

(** [np.argmin]: the first position of the least value; [ValueError] on an
    empty array. *)
Fixpoint argmin_from (pos : nat) (best : nat) (vbest : Q) (l : list Q) : nat :=
  match l with
  | [] => best
  | x :: l' =>
      if Qltb x vbest then argmin_from (S pos) pos x l'
      else argmin_from (S pos) best vbest l'
  end.

Definition argmin (l : list Q) : outcome nat :=
  match l with
  | [] => Raise (ValueError "attempt to get argmin of an empty sequence")
  | x :: l' => Return (argmin_from 1 0 x l')
  end.

(** [a - c] on rows of equal dimension. *)
Fixpoint vsub (a c : vec) : vec :=
  match a, c with
  | x :: a', y :: c' => (x - y)%Q :: vsub a' c'
  | _, _ => []
  end.

(** Sorting positions by value, as [np.argsort] does: positions in ascending
    order of value, equal values by [rank] and equal ranks by position.
    Whatever [rank] is, the result is a permutation of the positions in
    ascending order of value; a constant [rank] keeps equal values in
    position order, as an insertion sort does. *)
Definition precedes (xs : list Q) (rank : nat -> nat) (i j : nat) : bool :=
  (Qltb (nth i xs 0%Q) (nth j xs 0%Q)
   || (Qle_bool (nth i xs 0%Q) (nth j xs 0%Q) && Nat.leb (rank i) (rank j)))%bool.

Fixpoint insert_by (xs : list Q) (rank : nat -> nat) (i : nat) (l : list nat)
  : list nat :=
  match l with
  | [] => [i]
  | j :: l' =>
      if precedes xs rank i j then i :: j :: l'
      else j :: insert_by xs rank i l'
  end.

Definition sort_positions (xs : list Q) (rank : nat -> nat) : list nat :=
  fold_right (insert_by xs rank) [] (seq 0 (length xs)).

Definition newline : string := String "010"%char EmptyString.

(** [str.strip()]: whitespace taken off both ends.  Characters are modelled
    by the 256 one-byte code points; the ones [str.isspace] accepts among
    them are 9-13, 28-32, 133 and 160. *)
Definition is_space (c : ascii) : bool :=
  let n := nat_of_ascii c in
  ((Nat.leb 9 n && Nat.leb n 13) || (Nat.leb 28 n && Nat.leb n 32)
   || Nat.eqb n 133 || Nat.eqb n 160)%bool.

Fixpoint lstrip (s : string) : string :=
  match s with
  | String c s' => if is_space c then lstrip s' else s
  | EmptyString => EmptyString
  end.

Fixpoint rstrip (s : string) : string :=
  match s with
  | String c s' =>
      match rstrip s' with
      | EmptyString => if is_space c then EmptyString else String c EmptyString
      | t => String c t
      end
  | EmptyString => EmptyString
  end.

Definition strip (s : string) : string := rstrip (lstrip s).

(** ** The program *)

(** Line 38: the knowledge base the module starts with. *)
Definition initial_knowledge_base : list string :=
  [ "Our store hours are 9 AM to 5 PM, Monday to Friday.";
    "To reset your password, click on the 'Forgot Password' link on the login page.";
    "We offer refunds within 30 days of purchase with a valid receipt.";
    "Our product warranty covers manufacturing defects for one year from the date of purchase.";
    "For technical support, please email support@example.com or call 0800-123-4567." ].

(** Line 62: a template is the text before and after [{response}]. *)
Definition response_templates (sentiment : string) : list (string * string) :=
  if String.eqb sentiment "POSITIVE" then
    [ ("I'm glad to hear your positive feedback! ", "");
      ("That's great! ", "");
      ("Thank you for your support! ", "") ]
  else if String.eqb sentiment "NEGATIVE" then
    [ ("I'm sorry to hear you're having issues. ", " Let's work together to resolve this.");
      ("I understand your frustration. ", " We'll do our best to help you.");
      ("I apologize for the inconvenience. ",
       " Please let me know if there's anything else I can assist you with.") ]
  else [].

Definition format (template : string * string) (response : string) : string :=
  String.append (fst template) (String.append response (snd template)).

Definition empty_analytics : AnalyticsSystem := mkAnalytics [] [] [] [].

Section Program.

Variable E : collaborators.

(** Lines 46-53 and 136, 211: the module's start.  When the first encoding
    raises, [st.stop()] ends the script and there is no world. *)
Definition startup : option world :=
  match sentence_model_encode E [] initial_knowledge_base with
  | Return es =>
      Some (mkWorld initial_knowledge_base es [] empty_analytics
                    [EncodeCall initial_knowledge_base])
  | Raise _ => None
  end.

Definition encode (texts : list string) : M (list vec) :=
  call (EncodeCall texts) (fun h => sentence_model_encode E h texts).

Definition self_encode (texts : list string) : M (list vec) :=
  call (SelfEncodeCall texts) (fun h => self_sentence_model_encode E h texts).

Definition analyze (query : string) : M (list sentiment_result) :=
  call (SentimentCall query) (fun h => sentiment_analyzer E h query).

Definition now : M Q :=
  call ClockCall (fun h => Return (datetime_now E h)).

(** Lines 76-92. *)
Definition analyze_sentiment_and_personalize (query response : string)
  : M (string * string) :=
  results <- analyze query ;;
  sentiment_result <- lift (getitem results 0) ;;
  let sentiment_score := score sentiment_result in
  let sentiment :=
    if (String.eqb (label sentiment_result) "POSITIVE" && Qltb (6 # 10) sentiment_score)%bool
    then "POSITIVE"
    else if (String.eqb (label sentiment_result) "NEGATIVE" && Qltb (6 # 10) sentiment_score)%bool
    then "NEGATIVE"
    else "NEUTRAL" in
  if (String.eqb sentiment "POSITIVE" || String.eqb sentiment "NEGATIVE")%bool then
    let templates := response_templates sentiment in
    (* random.choice: a position below the number of templates *)
    pick <- call (ChoiceCall (length templates))
                 (fun h => Return (random_choice E h (length templates))) ;;
    template <- lift (getitem templates pick) ;;
    ret (format template response, sentiment)
  else ret (response, sentiment).

(** Lines 102-103. *)
Definition evaluate_certainty (query response : string) : bool :=
  (50 <? String.length response)%nat.

(** Lines 105-106. *)
Definition add_uncertain_query (query response : string) : M unit :=
  modify (fun w => set_uncertain_queries (uncertain_queries w ++ [(query, response)]) w).

(** Lines 121-126: the body of the loop, for cluster [i]. *)
Definition representative (uq : list (string * string)) (embeddings : list vec)
    (fit : kmeans_fit) (i : nat) : outcome (string * string) :=
  let cluster_indices := where_eq (labels_ fit) i in
  obind (getitem (cluster_centers_ fit) i) (fun center_embedding =>
  obind (traverse (getitem embeddings) cluster_indices) (fun members =>
  let distances := map (fun e => linalg_norm E (vsub e center_embedding)) members in
  obind (argmin distances) (fun a =>
  obind (getitem cluster_indices a) (fun representative_index =>
  getitem uq representative_index)))).

(** Lines 108-128.  In the short-circuit the list returned is the queue
    itself. *)
Definition cluster_uncertain_queries (n_clusters : Z) : M (list (string * string)) :=
  uq <- gets uncertain_queries ;;
  if Z.of_nat (length uq) <? n_clusters then ret uq
  else
    let queries := map fst uq in
    embeddings <- self_encode queries ;;
    fit <- call (KMeansCall n_clusters) (fun h => KMeans_fit E h n_clusters embeddings) ;;
    lift (traverse (representative uq embeddings fit) (range n_clusters)).

(** Lines 130-133.  [extend] changes the shared list before the provider is
    called; the global [knowledge_embeddings] is rebound only when the call
    returns. *)
Definition update_knowledge_base (new_entries : list string) : M unit :=
  modify (fun w => set_knowledge_base (knowledge_base w ++ new_entries) w) ;;;
  kb <- gets knowledge_base ;;
  es <- encode kb ;;
  modify (set_knowledge_embeddings es).

(** Lines 146-150. *)
Definition log_interaction (query : string) (response_time : Q)
    (sentiment topic : string) : M unit :=
  modify (fun w =>
    let a := analytics_system w in
    set_analytics_system
      (mkAnalytics (queries a ++ [query]) (response_times a ++ [response_time])
                   (sentiments a ++ [sentiment]) (topics a ++ [topic])) w).

(** [a.argsort()] with the default kind, for which NumPy promises no order
    among equal values: its generic path keeps them in position order on
    short arrays (an insertion sort), its other paths do not.  The order
    among equal values is therefore the library's, [argsort_ties]. *)
Definition argsort (a : list Q) : list nat :=
  sort_positions a (argsort_ties E a).

(** Line 218: [similarities.argsort()[-top_k:][::-1]]. *)
Definition top_indices (similarities : list Q) (top_k : Z) : list nat :=
  rev (slice_from (- top_k) (argsort similarities)).

(** Lines 216-218: the similarities of this call and the ranked positions. *)
Definition rank_entries (query : string) (top_k : Z) : M (list Q * list nat) :=
  query_embedding <- encode [query] ;;
  es <- gets knowledge_embeddings ;;
  rows <- call CosineCall (fun _ => cosine_similarity E query_embedding es) ;;
  similarities <- lift (getitem rows 0) ;;
  ret (similarities, top_indices similarities top_k).

(** Lines 216-219: the body of the [try]. *)
Definition retrieve_body (query : string) (top_k : Z) : M (list string) :=
  ranked <- rank_entries query top_k ;;
  kb <- gets knowledge_base ;;
  lift (traverse (getitem kb) (snd ranked)).

(** Lines 214-222. *)
Definition retrieve_relevant_context (query : string) (top_k : Z) : M (list string) :=
  try_except (retrieve_body query top_k)
    (fun e =>
       logging_error (String.append "Error in retrieve_relevant_context: " (str_exn e)) ;;;
       ret []).

(** Lines 228-246: from the retrieval to the answer, raw and personalised. *)
Definition answer_phase (query : string) : M (string * string) :=
  relevant_context <- retrieve_relevant_context query 2 ;;
  let context_text := String.concat " " relevant_context in
  let user_content :=
    String.append "Context: "
      (String.append context_text
         (String.append newline
            (String.append newline (String.append "Question: " query)))) in
  content <- call (ChatCall user_content)
                  (fun h => chat_completions_create E h user_content) ;;
  let raw_response := strip content in
  personalized <- analyze_sentiment_and_personalize query raw_response ;;
  let personalized_response := fst personalized in
  ret (raw_response, personalized_response).

(** Lines 248-249. *)
Definition record_uncertainty (query raw_response : string) : M unit :=
  if negb (evaluate_certainty query raw_response)
  then add_uncertain_query query raw_response
  else ret tt.

(** Lines 251-259. *)
Definition analytics_phase (query : string) (start_time : Q) : M unit :=
  end_time <- now ;;
  let response_time := (end_time - start_time)%Q in
  results <- analyze query ;;
  first <- lift (getitem results 0) ;;
  let sentiment := label first in
  let topic := "General" in
  log_interaction query response_time sentiment topic.

(** Lines 227-259: the body of the [try]; [start_time] was read before it. *)
Definition generate_body (query : string) (start_time : Q) : M string :=
  answer <- answer_phase query ;;
  let raw_response := fst answer in
  let personalized_response := snd answer in
  record_uncertainty query raw_response ;;;
  analytics_phase query start_time ;;;
  ret personalized_response.

(** Lines 225-262. *)
Definition generate_response (query : string) : M string :=
  start_time <- now ;;
  try_except (generate_body query start_time)
    (fun e =>
       logging_error (String.append "Error in generate_response: " (str_exn e)) ;;;
       ret (String.append "An error occurred: " (str_exn e))).

End Program.

(** ** Concrete collaborators

    Small stand-ins for the libraries, used to run the program on concrete
    inputs. *)
Module Sample.

(** An embedding of two coordinates: the length of the text and the code of
    its first character. *)
Definition embed (s : string) : vec :=
  [ inject_Z (Z.of_nat (String.length s));
    match s with
    | String c _ => inject_Z (Z.of_nat (nat_of_ascii c))
    | EmptyString => 0%Q
    end ].

Definition encode_up (h : list event) (texts : list string) : outcome (list vec) :=
  Return (map embed texts).

Definition encode_down (h : list event) (texts : list string) : outcome (list vec) :=
  Raise (RuntimeError "embedding provider unreachable").

(** A provider that answers the first call of the process (the start-up
    encoding) and is unreachable afterwards. *)
Definition encode_once (h : list event) (texts : list string) : outcome (list vec) :=
  match h with
  | [] => encode_up h texts
  | _ => encode_down h texts
  end.

Fixpoint dot (a b : vec) : Q :=
  match a, b with
  | x :: a', y :: b' => (x * y + dot a' b')%Q
  | _, _ => 0%Q
  end.

(** Similarity of every row of [X] with every row of [Y]; as scikit-learn
    does, it refuses an array without rows. *)
Definition similarity (X Y : list vec) : outcome (list (list Q)) :=
  match X, Y with
  | [], _ | _, [] => Raise (ValueError "Found array with 0 sample(s)")
  | _, _ => Return (map (fun x => map (dot x) Y) X)
  end.

Definition similarity_down (X Y : list vec) : outcome (list (list Q)) :=
  Raise (ValueError "Incompatible dimension for X and Y matrices").

(** The square of the Euclidean norm; it orders vectors as the norm does. *)
Definition norm2 (v : vec) : Q := dot v v.

Definition nearest (centers : list vec) (x : vec) : nat :=
  match argmin (map (fun c => norm2 (vsub x c)) centers) with
  | Return i => i
  | Raise _ => O
  end.

(** A centroid-based clustering: the first [n_clusters] points are the
    centroids and every point goes to its nearest centroid, the first one on
    ties.  Like scikit-learn it refuses a cluster count below 1 or above the
    number of points. *)
Definition kmeans (h : list event) (n_clusters : Z) (X : list vec) : outcome kmeans_fit :=
  if n_clusters <? 1 then
    Raise (ValueError "The 'n_clusters' parameter of KMeans must be an int in the range [1, inf)")
  else if Z.of_nat (length X) <? n_clusters then
    Raise (ValueError "n_samples should be >= n_clusters")
  else
    let centers := firstn (Z.to_nat n_clusters) X in
    Return (mkFit (map (nearest centers) X) centers).

Definition chat (h : list event) (user_content : string) : outcome string :=
  Return " Please check our website. ".

Definition chat_long (h : list event) (user_content : string) : outcome string :=
  Return "Our store is open from 9 AM to 5 PM, Monday to Friday, except on public holidays.".

Definition sentiment (h : list event) (query : string) : outcome (list sentiment_result) :=
  Return [mkSentiment "NEGATIVE" (9 # 10)].

Definition E_up : collaborators :=
  mkCollab encode_up encode_up similarity kmeans norm2 chat sentiment
           (fun _ _ => 1%nat) (fun h => inject_Z (Z.of_nat (length h)))
           (fun _ _ => O).

Definition E_down : collaborators :=
  mkCollab encode_down encode_down similarity kmeans norm2 chat sentiment
           (fun _ _ => 1%nat) (fun h => inject_Z (Z.of_nat (length h)))
           (fun _ _ => O).

Definition E_once : collaborators :=
  mkCollab encode_once encode_up similarity kmeans norm2 chat sentiment
           (fun _ _ => 1%nat) (fun h => inject_Z (Z.of_nat (length h)))
           (fun _ _ => O).

Definition E_nosim : collaborators :=
  mkCollab encode_up encode_up similarity_down kmeans norm2 chat sentiment
           (fun _ _ => 1%nat) (fun h => inject_Z (Z.of_nat (length h)))
           (fun _ _ => O).

Definition E_long : collaborators :=
  mkCollab encode_up encode_up similarity kmeans norm2 chat_long sentiment
           (fun _ _ => 1%nat) (fun h => inject_Z (Z.of_nat (length h)))
           (fun _ _ => O).

(** The world after a start with a working provider. *)
Definition w0 : world :=
  mkWorld initial_knowledge_base (map embed initial_knowledge_base) []
          empty_analytics [EncodeCall initial_knowledge_base].

Definition with_queue (uq : list (string * string)) : world :=
  set_uncertain_queries uq w0.

(** An index of two entries that [embed] cannot tell apart: both have the
    same length and the same first character. *)
Definition tie_entries : list string :=
  [ "Returns are accepted for 30 days."; "Refunds are accepted for 30 days." ].

Definition w_tie : world :=
  mkWorld tie_entries (map embed tie_entries) [] empty_analytics
          [EncodeCall tie_entries].

(** The same short exchange queued five times. *)
Definition same_five : list (string * string) :=
  [ ("hi", "Hello!"); ("hi", "Hello!"); ("hi", "Hello!"); ("hi", "Hello!"); ("hi", "Hello!") ].

Definition three_cases : list (string * string) :=
  [ ("a", "x"); ("bb", "y"); ("ccc", "z") ].

End Sample.

(** ** Properties stated over the program *)

(** Entry [i] of the knowledge base is paired with row [i] of the
    embeddings. *)
Definition paired (w : world) : Prop :=
  length (knowledge_base w) = length (knowledge_embeddings w).

(** A caller that appends batch after batch, going on after a failure. *)
Fixpoint appends (E : collaborators) (batches : list (list string)) (w : world)
  : list (outcome unit * world) :=
  match batches with
  | [] => []
  | b :: bs =>
      let r := update_knowledge_base E b w in
      r :: appends E bs (snd r)
  end.

(** Curation passes run one after the other, whatever each one gives. *)
Fixpoint curation_passes (E : collaborators) (ns : list Z) (w : world) : world :=
  match ns with
  | [] => w
  | n :: ns' => curation_passes E ns' (snd (cluster_uncertain_queries E n w))
  end.

(** What the libraries promise when they return. *)
Definition encode_one_per_text (enc : list event -> list string -> outcome (list vec)) : Prop :=
  forall h texts es, enc h texts = Return es -> length es = length texts.

Definition similarity_row_per_entry (E : collaborators) : Prop :=
  forall X Y rows, cosine_similarity E X Y = Return rows ->
    Forall (fun row => length row = length Y) rows.

Definition kmeans_rejects_below_one (E : collaborators) : Prop :=
  forall h n X, n < 1 -> is_raise (KMeans_fit E h n X) = true.

(** A fit of [n] clusters over [m] points in which no cluster is empty. *)
Definition fit_covers (fit : kmeans_fit) (n : Z) (m : nat) : Prop :=
  length (labels_ fit) = m /\
  length (cluster_centers_ fit) = Z.to_nat n /\
  forall i, (i < Z.to_nat n)%nat -> exists j, nth_error (labels_ fit) j = Some i.

Definition sim_at (sims : list Q) (i : nat) : Q := nth i sims 0%Q.

(** [a] stands before [b] in the ranking [l]. *)
Definition ranks_before (l : list nat) (a b : nat) : Prop :=
  exists l1 l2 l3, l = l1 ++ a :: l2 ++ b :: l3.

Definition descending (sims : list Q) (ids : list nat) : Prop :=
  StronglySorted (fun a b => (sim_at sims b <= sim_at sims a)%Q) ids.

(** The order [sort_positions] gives: by similarity, among equal
    similarities by rank, and among equal ranks by position. *)
Definition earlier_first (sims : list Q) (rank : nat -> nat) (a b : nat) : Prop :=
  (sim_at sims a < sim_at sims b)%Q \/
  ((sim_at sims a == sim_at sims b)%Q /\
   ((rank a < rank b)%nat \/ (rank a = rank b /\ (a < b)%nat))).

(** The order [top_indices] gives: the one above read backwards. *)
Definition later_first (sims : list Q) (rank : nat -> nat) (a b : nat) : Prop :=
  earlier_first sims rank b a.

(** A tie order that keeps equal values in position order. *)
Definition position_keeping (rank : nat -> nat) : Prop :=
  forall a b, (a < b)%nat -> (rank a <= rank b)%nat.

(** The Euclidean distance of row [j] of [embeddings] to [center]. *)
Definition distance (E : collaborators) (embeddings : list vec) (center : vec) (j : nat) : Q :=
  linalg_norm E (vsub (nth j embeddings []) center).

(** A computation leaves the part [f] of the world as it found it, whether
    it returns or raises. *)
Definition preserves {A B} (f : world -> A) (m : M B) : Prop :=
  forall w, f (snd (m w)) = f w.

(** A part of the world that writing on the history does not touch. *)
Definition off_history {A} (f : world -> A) : Prop :=
  forall ev w, f (record ev w) = f w.

(** *** The spec's sentences that the code does not satisfy as written *)

(** "If the embedding call fails, the entry count and the embedding count
    after the call equal what they were before the call." *)
Definition append_all_or_nothing (E : collaborators) (new_entries : list string)
    (w : world) : Prop :=
  let r := update_knowledge_base E new_entries w in
  is_raise (fst r) = true ->
  length (knowledge_base (snd r)) = length (knowledge_base w) /\
  length (knowledge_embeddings (snd r)) = length (knowledge_embeddings w).

(** "If two entries have equal similarity, the one with the lower id always
    ranks first", read on two entries that are both returned. *)
Definition lowest_id_first (E : collaborators) (query : string) (top_k : Z)
    (w : world) : Prop :=
  forall sims ids w', rank_entries E query top_k w = (Return (sims, ids), w') ->
  forall i j, (i < j)%nat -> In i ids -> In j ids ->
    (sim_at sims i == sim_at sims j)%Q -> ranks_before ids i j.

(** "For all sequences of [append] operations, [len(entries) ==
    len(embeddings)] holds after each call", from the index the module
    starts with and with the calls in which the provider raised included. *)
Definition paired_after_each_append (E : collaborators) (batches : list (list string))
  : Prop :=
  forall w, startup E = Some w -> Forall (fun r => paired (snd r)) (appends E batches w).

(** "For [len(cases) >= n_clusters], returns exactly [n_clusters] items." *)
Definition returns_n_representatives (E : collaborators) (n_clusters : Z)
    (w : world) : Prop :=
  0 < n_clusters -> n_clusters <= Z.of_nat (length (uncertain_queries w)) ->
  exists reps, fst (cluster_uncertain_queries E n_clusters w) = Return reps /\
               Z.of_nat (length reps) = n_clusters.

(** "For every non-empty index and every positive [k], search returns at
    most [k] entries ...; when [k] exceeds the entry count, it returns all
    stored entries."  The ordering the sentence also asks for is left out
    here: the sentence fails without it. *)
Definition returns_all_when_k_exceeds (E : collaborators) (query : string) (top_k : Z)
    (w : world) : Prop :=
  0 < top_k -> knowledge_base w <> [] ->
  exists out,
    fst (retrieve_relevant_context E query top_k w) = Return out /\
    Z.of_nat (length out) <= top_k /\
    (Z.of_nat (length (knowledge_base w)) < top_k ->
     Permutation out (knowledge_base w)).

(** "Non-positive [k] or [n_clusters] should fail fast." *)
Definition nonpositive_fails_fast (E : collaborators) (query : string) (top_k : Z)
    (n_clusters : Z) (w : world) : Prop :=
  (top_k <= 0 -> is_raise (fst (retrieve_relevant_context E query top_k w)) = true) /\
  (n_clusters <= 0 -> is_raise (fst (cluster_uncertain_queries E n_clusters w)) = true).

(** ** Runs of the application *)

(** What a session does to the world: a query answered, a curation pass, a
    batch appended; each goes on from the world the one before left, whether
    it returned or raised. *)
Inductive op : Type :=
| Ask (query : string)
| Curate (n_clusters : Z)
| Append (new_entries : list string).

Definition run_op (E : collaborators) (o : op) (w : world) : world :=
  match o with
  | Ask query => snd (generate_response E query w)
  | Curate n_clusters => snd (cluster_uncertain_queries E n_clusters w)
  | Append new_entries => snd (update_knowledge_base E new_entries w)
  end.

Definition run_ops (E : collaborators) (ops : list op) (w : world) : world :=
  fold_left (fun w' o => run_op E o w') ops w.

(** The texts a run appends, in order. *)
Definition appended (ops : list op) : list string :=
  flat_map (fun o => match o with Append new_entries => new_entries | _ => [] end) ops.

(** The queries a run asks. *)
Definition asked (ops : list op) : list string :=
  flat_map (fun o => match o with Ask query => [query] | _ => [] end) ops.

(** The four lists of the analytics system describe the same interactions. *)
Definition aligned (a : AnalyticsSystem) : Prop :=
  length (response_times a) = length (queries a) /\
  length (sentiments a) = length (queries a) /\
  length (topics a) = length (queries a).

(** [personalized] is [response] with text put before and after it. *)
Definition wraps (personalized response : string) (template : string * string) : Prop :=
  personalized = String.append (fst template) (String.append response (snd template)).

(** A queued case as [generate_response] makes them: the answer is short and
    has no whitespace left at its ends. *)
Definition short_stripped (case : string * string) : Prop :=
  (String.length (snd case) <= 50)%nat /\ strip (snd case) = snd case.

(** A computation keeps the property [P] of the world, whether it returns
    or raises. *)
Definition keeps {B} (P : world -> Prop) (m : M B) : Prop :=
  forall w, P w -> P (snd (m w)).

(** Row [i] of the embeddings is the vector [f] gives to entry [i]. *)
Definition indexed_by (f : string -> vec) (w : world) : Prop :=
  knowledge_embeddings w = map f (knowledge_base w).

(** A provider that always answers, each text with its vector under [f]. *)
Definition encodes_with (f : string -> vec)
    (enc : list event -> list string -> outcome (list vec)) : Prop :=
  forall h texts, enc h texts = Return (map f texts).

(** Line 233: the user message sent to the chat model. *)
Definition user_content_of (context_text query : string) : string :=
  String.append "Context: "
    (String.append context_text
       (String.append newline
          (String.append newline (String.append "Question: " query)))).

(** Further stand-ins for the libraries. *)
Module Demo.

Definition chat_down (h : list event) (user_content : string) : outcome string :=
  Raise (RuntimeError "rate limit exceeded").

Definition E_chat_down : collaborators :=
  mkCollab Sample.encode_up Sample.encode_up Sample.similarity Sample.kmeans
           Sample.norm2 chat_down Sample.sentiment
           (fun _ _ => 1%nat) (fun h => inject_Z (Z.of_nat (length h)))
           (fun _ _ => O).

Definition sentiment_unsure (h : list event) (query : string)
  : outcome (list sentiment_result) :=
  Return [mkSentiment "NEGATIVE" (55 # 100)].

Definition E_unsure : collaborators :=
  mkCollab Sample.encode_up Sample.encode_up Sample.similarity Sample.kmeans
           Sample.norm2 Sample.chat sentiment_unsure
           (fun _ _ => 1%nat) (fun h => inject_Z (Z.of_nat (length h)))
           (fun _ _ => O).

Definition financing : string :=
  "zero-interest financing is available on all orders above one hundred dollars.".

Definition E_blind : collaborators :=
  mkCollab Sample.encode_down Sample.encode_down Sample.similarity Sample.kmeans
           Sample.norm2 Sample.chat sentiment_unsure
           (fun _ _ => 1%nat) (fun h => inject_Z (Z.of_nat (length h)))
           (fun _ _ => O).

(** A sort that leaves equal values in the opposite of position order. *)
Definition E_backwards : collaborators :=
  mkCollab Sample.encode_up Sample.encode_up Sample.similarity Sample.kmeans
           Sample.norm2 Sample.chat Sample.sentiment
           (fun _ _ => 1%nat) (fun h => inject_Z (Z.of_nat (length h)))
           (fun a i => (length a - i)%nat).

(** A provider that is unreachable at the second call of the process only:
    it answers the start-up encoding, fails the first append and answers
    again afterwards. *)
Definition encode_second_fails (h : list event) (texts : list string)
  : outcome (list vec) :=
  if Nat.eqb (length h) 1 then Sample.encode_down h texts else Sample.encode_up h texts.

Definition E_second_fails : collaborators :=
  mkCollab encode_second_fails Sample.encode_up Sample.similarity Sample.kmeans
           Sample.norm2 Sample.chat Sample.sentiment
           (fun _ _ => 1%nat) (fun h => inject_Z (Z.of_nat (length h)))
           (fun _ _ => O).

(** The index one failed append leaves: six entries, five embeddings. *)
Definition w_unpaired : world :=
  snd (update_knowledge_base E_second_fails ["New policy: gift cards never expire."]
         Sample.w0).

End Demo.

(** ** The report and the chat page (lines 152-208 and 265-310)

    pandas, matplotlib and Streamlit are outside the program.  What the
    report computes with Python values (which interactions are in the
    window, the counts, the unpacking of the top topics, the text) is
    written out; the drawing calls and the printing of floats and dates are
    collaborators. *)

Record reporting : Type := mkReporting {
  plot_daily_volume : list Q -> outcome unit;
  plot_response_times : list Q -> outcome unit;
  plot_sentiments : list (string * nat) -> outcome unit;
  plot_topics : list string -> list nat -> outcome unit;
  format_datetime : Q -> string;
  format_fixed : nat -> Q -> string
}.

(** Times are in seconds. *)
Definition hour : Q := 3600.
Definition thirty_days : Q := 2592000.

(** A row of the data frame of line 153. *)
Record row : Type := mkRow {
  row_query : string;
  row_response_time : Q;
  row_sentiment : string;
  row_topic : string;
  row_timestamp : Q
}.

(** The rows from position [i] on; [pd.date_range(start, periods, freq='H')]
    stamps position [i] with [start + i] hours. *)
Fixpoint rows_from (i : nat) (start_date : Q) (qs : list string) (rts : list Q)
    (ss ts : list string) : list row :=
  match qs, rts, ss, ts with
  | q :: qs', rt :: rts', s :: ss', t :: ts' =>
      mkRow q rt s t (start_date + hour * inject_Z (Z.of_nat i))%Q
      :: rows_from (S i) start_date qs' rts' ss' ts'
  | _, _, _, _ => []
  end.

(** Lines 153-159: [pd.DataFrame] refuses columns of different lengths; the
    timestamp column has one stamp per query. *)
Definition data_frame (a : AnalyticsSystem) (start_date : Q) : outcome (list row) :=
  if (Nat.eqb (length (response_times a)) (length (queries a))
      && Nat.eqb (length (sentiments a)) (length (queries a))
      && Nat.eqb (length (topics a)) (length (queries a)))%bool
  then Return (rows_from 0 start_date (queries a) (response_times a)
                         (sentiments a) (topics a))
  else Raise (ValueError "All arrays must be of the same length").

(** Line 161: the mask. *)
Definition in_window (start_date end_date : Q) (r : row) : bool :=
  (Qle_bool start_date (row_timestamp r) && Qle_bool (row_timestamp r) end_date)%bool.

(** Lines 153-162: the frame the report is made from. *)
Definition report_frame (a : AnalyticsSystem) (start_date end_date : Q)
  : outcome (list row) :=
  obind (data_frame a start_date) (fun frame =>
  Return (filter (in_window start_date end_date) frame)).

(** [collections.Counter]: keys in the order they were first seen. *)
Fixpoint counter_add (key : string) (c : list (string * nat)) : list (string * nat) :=
  match c with
  | [] => [(key, 1%nat)]
  | (k, n) :: c' =>
      if String.eqb k key then (k, S n) :: c' else (k, n) :: counter_add key c'
  end.

Definition Counter (keys : list string) : list (string * nat) :=
  fold_left (fun c key => counter_add key c) keys [].

(** [counter[key]]: 0 for a key never seen. *)
Definition counter_get (c : list (string * nat)) (key : string) : nat :=
  match find (fun p => String.eqb (fst p) key) c with
  | Some p => snd p
  | None => O
  end.

(** [Counter.most_common(n)]: by count, greatest first, equal counts in the
    order first seen. *)
Fixpoint insert_count (p : string * nat) (l : list (string * nat)) : list (string * nat) :=
  match l with
  | [] => [p]
  | q :: l' =>
      if (snd q <? snd p)%nat then p :: q :: l' else q :: insert_count p l'
  end.

Definition most_common (n : nat) (c : list (string * nat)) : list (string * nat) :=
  firstn n (fold_left (fun acc p => insert_count p acc) c []).

(** Line 185: the topic and count pairs are unzipped into [topics] and
    [counts]; with no pair to unzip there is nothing to unpack. *)
Definition unpack_pairs (topic_counts : list (string * nat))
  : outcome (list string * list nat) :=
  match topic_counts with
  | [] => Raise (ValueError "not enough values to unpack (expected 2, got 0)")
  | _ => Return (map fst topic_counts, map snd topic_counts)
  end.

Definition str_nat (n : nat) : string := NilEmpty.string_of_uint (Nat.to_uint n).

Definition sum_Q (l : list Q) : Q := fold_left Qplus l 0%Q.

(** [count / len(df) * 100]; the division raises on an empty frame
    (ZeroDivisionError). *)
Definition percent (count total : nat) : outcome Q :=
  match total with
  | O => Raise (RuntimeError "division by zero")
  | _ => Return (inject_Z (Z.of_nat count) / inject_Z (Z.of_nat total) * 100)%Q
  end.

Definition indent8 : string := "        ".
Definition indent11 : string := "           ".

Definition sentiment_line (R : reporting) (name key : string)
    (sentiment_counts : list (string * nat)) (total : nat) : outcome string :=
  obind (percent (counter_get sentiment_counts key) total) (fun pct =>
  Return (String.concat ""
            [indent11; name; ": "; str_nat (counter_get sentiment_counts key);
             " ("; format_fixed R 1 pct; "%)"; newline])).

(** Lines 195-206: the text of the report.  The mean of an empty column is
    NaN in pandas; the model's division gives 0 there. *)
Definition report_text (R : reporting) (start_date end_date : Q) (df : list row)
    (sentiment_counts topic_counts : list (string * nat)) : outcome string :=
  let total := length df in
  let mean := (sum_Q (map row_response_time df) / inject_Z (Z.of_nat total))%Q in
  obind (sentiment_line R "Positive" "POSITIVE" sentiment_counts total) (fun positive =>
  obind (sentiment_line R "Neutral" "NEUTRAL" sentiment_counts total) (fun neutral =>
  obind (sentiment_line R "Negative" "NEGATIVE" sentiment_counts total) (fun negative =>
  Return (String.concat ""
    [ newline;
      indent8; "Analysis Report ("; format_datetime R start_date; " to ";
      format_datetime R end_date; ")"; newline;
      newline;
      indent8; "1. Total number of queries: "; str_nat total; newline;
      indent8; "2. Average response time: "; format_fixed R 2 mean; " seconds"; newline;
      indent8; "3. Sentiment distribution:"; newline;
      positive; neutral; negative;
      indent8; "4. Top 5 popular topics:"; newline;
      indent11;
      String.concat ", "
        (map (fun p => String.concat "" [fst p; " ("; str_nat (snd p); ")"]) topic_counts);
      newline;
      indent8 ])))).

(** Lines 152-208.  The figure returned beside the text is what the plot
    calls have drawn. *)
Definition generate_report (R : reporting) (start_date end_date : Q) : M string :=
  a <- gets analytics_system ;;
  df <- lift (report_frame a start_date end_date) ;;
  lift (plot_daily_volume R (map row_timestamp df)) ;;;
  lift (plot_response_times R (map row_response_time df)) ;;;
  let sentiment_counts := Counter (map row_sentiment df) in
  lift (plot_sentiments R sentiment_counts) ;;;
  let topic_counts := most_common 5 (Counter (map row_topic df)) in
  unpacked <- lift (unpack_pairs topic_counts) ;;
  lift (plot_topics R (fst unpacked) (snd unpacked)) ;;;
  lift (report_text R start_date end_date df sentiment_counts topic_counts).

(** [str.lower()] on the one-byte code points: A-Z and the capital letters
    192-222 (but 215) move up by 32. *)
Definition lower_char (c : ascii) : ascii :=
  let n := nat_of_ascii c in
  if ((Nat.leb 65 n && Nat.leb n 90)
      || (Nat.leb 192 n && Nat.leb n 222 && negb (Nat.eqb n 215)))%bool
  then ascii_of_nat (n + 32) else c.

Fixpoint lower (s : string) : string :=
  match s with
  | EmptyString => EmptyString
  | String c s' => String (lower_char c) (lower s')
  end.

(** What Streamlit shows. *)
Inductive ui : Type :=
| Title (text : string)
| Write (text : string)
| ChatMessage (role content : string)
| Pyplot.

(** The state of the page: the program's world, [st.session_state] (where
    [chat_history] may not be set yet) and what has been drawn. *)
Record app : Type := mkApp {
  app_world : world;
  chat_history : option (list (string * string));
  screen : list ui
}.

Definition report_reply (report : string) : string :=
  String.append "Here's the latest analytics report:"
    (String.append newline (String.append newline report)).

(** Lines 265-310, with what [st.chat_input] gave as [user_input]. *)
Definition main (E : collaborators) (R : reporting) (user_input : option string)
    (s : app) : outcome unit * app :=
  let history0 := match chat_history s with Some h => h | None => [] end in
  let screen0 :=
    screen s
    ++ [ Title "Advanced RAG-Enhanced Customer Service Assistant";
         Write "Ask any question related to our services or type 'Generate report' for analytics!" ]
    ++ map (fun m => ChatMessage (fst m) (snd m)) history0 in
  match user_input with
  | None | Some EmptyString => (Return tt, mkApp (app_world s) (Some history0) screen0)
  | Some text =>
      let history1 := history0 ++ [("user", text)] in
      let screen1 := screen0 ++ [ChatMessage "user" text] in
      if String.eqb (lower text) "generate report" then
        let end_date := datetime_now E (history (app_world s)) in
        let w1 := record ClockCall (app_world s) in
        let start_date := (end_date - thirty_days)%Q in
        match generate_report R start_date end_date w1 with
        | (Return report, w2) =>
            (Return tt,
             mkApp w2 (Some (history1 ++ [("assistant", report_reply report)]))
                   (screen1 ++ [ChatMessage "assistant" (report_reply report); Pyplot]))
        | (Raise e, w2) => (Raise e, mkApp w2 (Some history1) screen1)
        end
      else
        match generate_response E text (app_world s) with
        | (Return response, w1) =>
            (Return tt,
             mkApp w1 (Some (history1 ++ [("assistant", response)]))
                   (screen1 ++ [ChatMessage "assistant" response]))
        | (Raise e, w1) => (Raise e, mkApp w1 (Some history1) screen1)
        end
  end.

Module Page.

Definition R_plain : reporting :=
  mkReporting (fun _ => Return tt) (fun _ => Return tt) (fun _ => Return tt)
              (fun _ _ => Return tt) (fun _ => "t") (fun _ _ => "x").

Definition fresh : app := mkApp Sample.w0 None [].

(** Eight hundred logged interactions. *)
Definition busy : AnalyticsSystem :=
  mkAnalytics (repeat "hi" 800) (repeat 1%Q 800) (repeat "NEGATIVE" 800)
              (repeat "General" 800).

End Page.

(** ** Frame lemmas *)

Section Frame.

Context {A : Type} (f : world -> A).

Lemma preserves_ret B (b : B) : preserves f (ret b).
Proof. intro w; reflexivity. Qed.

Lemma preserves_lift B (o : outcome B) : preserves f (lift o).
Proof. intro w; reflexivity. Qed.

Lemma preserves_gets B (g : world -> B) : preserves f (gets g).
Proof. intro w; reflexivity. Qed.

Lemma preserves_bind B C (m : M B) (k : B -> M C) :
  preserves f m -> (forall b, preserves f (k b)) -> preserves f (bind m k).
Proof.
  intros Hm Hk w. unfold bind.
  specialize (Hm w). destruct (m w) as [[b|e] w1]; simpl in *.
  - rewrite Hk. exact Hm.
  - exact Hm.
Qed.

Lemma preserves_try_except B (m : M B) (h : exn -> M B) :
  preserves f m -> (forall e, preserves f (h e)) -> preserves f (try_except m h).
Proof.
  intros Hm Hh w. unfold try_except.
  specialize (Hm w). destruct (m w) as [[b|e] w1]; simpl in *.
  - exact Hm.
  - rewrite Hh. exact Hm.
Qed.

Lemma preserves_call B (ev : event) (g : list event -> outcome B) :
  off_history f -> preserves f (call ev g).
Proof. intros H w. unfold call; simpl. apply H. Qed.

Lemma preserves_logging_error (msg : string) :
  off_history f -> preserves f (logging_error msg).
Proof. intros H w. unfold logging_error, modify; simpl. apply H. Qed.

Lemma preserves_modify (g : world -> world) :
  (forall w, f (g w) = f w) -> preserves f (modify g).
Proof. intros H w. unfold modify; simpl. apply H. Qed.

End Frame.

Lemma off_history_uncertain_queries : off_history uncertain_queries.
Proof. intros ev w; reflexivity. Qed.

Lemma off_history_knowledge_base : off_history knowledge_base.
Proof. intros ev w; reflexivity. Qed.

Lemma off_history_knowledge_embeddings : off_history knowledge_embeddings.
Proof. intros ev w; reflexivity. Qed.

Create HintDb frame.
#[local] Hint Resolve preserves_ret preserves_lift preserves_gets preserves_call
  preserves_logging_error off_history_uncertain_queries off_history_knowledge_base
  off_history_knowledge_embeddings : frame.

Ltac frame :=
  repeat first
    [ solve [ auto with frame ]
    | apply preserves_bind; [ | intro ]
    | apply preserves_try_except; [ | intro ]
    | match goal with |- preserves _ (if ?b then _ else _) => destruct b end
    | match goal with |- preserves _ (let _ := _ in _) => cbv zeta end ].

Lemma retrieve_preserves_queue E q k :
  preserves uncertain_queries (retrieve_relevant_context E q k).
Proof.
  unfold retrieve_relevant_context, retrieve_body, rank_entries, encode. frame.
Qed.

Lemma personalize_preserves_queue E q r :
  preserves uncertain_queries (analyze_sentiment_and_personalize E q r).
Proof.
  unfold analyze_sentiment_and_personalize, analyze. frame.
Qed.

#[local] Hint Resolve retrieve_preserves_queue personalize_preserves_queue : frame.

Lemma answer_phase_preserves_queue E q :
  preserves uncertain_queries (answer_phase E q).
Proof.
  unfold answer_phase. frame.
Qed.

Lemma analytics_phase_preserves_queue E q t :
  preserves uncertain_queries (analytics_phase E q t).
Proof.
  unfold analytics_phase, now, analyze, log_interaction. frame.
  apply preserves_modify. reflexivity.
Qed.

(** ** The curation pass and the queue *)

(** C5. With fewer queued cases than [n_clusters], the curation pass returns
    the queue itself, cases and order unchanged; it does not raise, and the
    world, with its history of calls to the embedding provider and to the
    clustering routine, is the one it started from. *)
Theorem cluster_short_circuit E (n_clusters : Z) (w : world) :
  Z.of_nat (length (uncertain_queries w)) < n_clusters ->
  cluster_uncertain_queries E n_clusters w = (Return (uncertain_queries w), w).
Proof.
  intro Hlt. unfold cluster_uncertain_queries, bind, gets. simpl.
  apply Z.ltb_lt in Hlt. rewrite Hlt. reflexivity.
Qed.

Lemma cluster_short_circuit_witness :
  cluster_uncertain_queries Sample.E_down 5
    (Sample.with_queue [("a", "x"); ("bb", "y"); ("ccc", "z")])
  = (Return [("a", "x"); ("bb", "y"); ("ccc", "z")],
     Sample.with_queue [("a", "x"); ("bb", "y"); ("ccc", "z")]).
Proof.
  apply (cluster_short_circuit Sample.E_down 5
           (Sample.with_queue [("a", "x"); ("bb", "y"); ("ccc", "z")])).
  simpl. lia.
Defined.

Lemma cluster_preserves_queue E n :
  preserves uncertain_queries (cluster_uncertain_queries E n).
Proof.
  unfold cluster_uncertain_queries, self_encode. frame.
Qed.

(** C10. A curation pass leaves the uncertainty queue as it found it, the
    same cases in the same order, whether it returns or raises; so after any
    number of passes the next one reads the same queue again. *)
Theorem curation_never_drains E (n_clusters : Z) (ns : list Z) (w : world) :
  uncertain_queries (snd (cluster_uncertain_queries E n_clusters w)) = uncertain_queries w /\
  uncertain_queries (curation_passes E ns w) = uncertain_queries w.
Proof.
  split.
  - apply cluster_preserves_queue.
  - revert w. induction ns as [|n ns IH]; intro w; simpl.
    + reflexivity.
    + rewrite IH. apply cluster_preserves_queue.
Qed.

(** ** Appending to the knowledge base *)

Lemma update_knowledge_base_unfold E new_entries w :
  update_knowledge_base E new_entries w =
  let kb := knowledge_base w ++ new_entries in
  let w1 := record (EncodeCall kb) (set_knowledge_base kb w) in
  match sentence_model_encode E (history w) kb with
  | Return es => (Return tt, set_knowledge_embeddings es w1)
  | Raise e => (Raise e, w1)
  end.
Proof.
  unfold update_knowledge_base, bind, modify, gets, encode, call. simpl.
  destruct (sentence_model_encode E (history w) (knowledge_base w ++ new_entries));
    reflexivity.
Qed.

(** C1, as the code has it. When the provider raises during an append, the
    exception reaches the caller, the embeddings are the ones from before
    the call, and the entry list has already grown by the new texts: the
    in-place [extend] is not undone. *)
Theorem update_failure_keeps_extension E (new_entries : list string) (w : world) :
  is_raise (fst (update_knowledge_base E new_entries w)) = true ->
  knowledge_embeddings (snd (update_knowledge_base E new_entries w))
    = knowledge_embeddings w /\
  knowledge_base (snd (update_knowledge_base E new_entries w))
    = knowledge_base w ++ new_entries /\
  length (knowledge_embeddings (snd (update_knowledge_base E new_entries w)))
    = length (knowledge_embeddings w) /\
  length (knowledge_base (snd (update_knowledge_base E new_entries w)))
    = (length (knowledge_base w) + length new_entries)%nat.
Proof.
  rewrite update_knowledge_base_unfold. cbv zeta.
  destruct (sentence_model_encode E (history w) (knowledge_base w ++ new_entries));
    simpl; [discriminate|intros _].
  repeat split. apply length_app.
Qed.

Lemma update_failure_keeps_extension_witness :
  length (knowledge_embeddings
            (snd (update_knowledge_base Sample.E_once
                    ["New policy: gift cards never expire."] Sample.w0))) = 5%nat /\
  length (knowledge_base
            (snd (update_knowledge_base Sample.E_once
                    ["New policy: gift cards never expire."] Sample.w0))) = 6%nat.
Proof.
  destruct (update_failure_keeps_extension Sample.E_once
              ["New policy: gift cards never expire."] Sample.w0 eq_refl)
    as (_ & _ & Hes & Hkb).
  split; [exact Hes | exact Hkb].
Defined.

(** C1, as the spec has it, fails: with a provider that is unreachable after
    the start, appending one text to the five-entry index leaves six entries
    and five embeddings. *)
Lemma append_all_or_nothing_fails :
  ~ append_all_or_nothing Sample.E_once ["New policy: gift cards never expire."] Sample.w0.
Proof.
  unfold append_all_or_nothing. intro H.
  destruct (H eq_refl) as [Hkb _]. vm_compute in Hkb. discriminate Hkb.
Qed.

Lemma update_return_pairs E new_entries w :
  encode_one_per_text (sentence_model_encode E) ->
  is_raise (fst (update_knowledge_base E new_entries w)) = false ->
  paired (snd (update_knowledge_base E new_entries w)).
Proof.
  intros Hc. rewrite update_knowledge_base_unfold. cbv zeta.
  destruct (sentence_model_encode E (history w) (knowledge_base w ++ new_entries))
    as [es|e] eqn:Henc; simpl; [intros _|discriminate].
  unfold paired. simpl. symmetry. exact (Hc _ _ _ Henc).
Qed.

(** C3, as the code has it. Along every sequence of appends, from any state
    of the index, every call in which the provider returned (one vector per
    text) leaves the entries and the embeddings paired, also after earlier
    calls that raised: the whole knowledge base is encoded again. *)
Theorem appends_paired_when_returned E (batches : list (list string)) (w : world) :
  encode_one_per_text (sentence_model_encode E) ->
  Forall (fun r => is_raise (fst r) = false -> paired (snd r)) (appends E batches w).
Proof.
  intro Hc. revert w.
  induction batches as [|b bs IH]; intro w; simpl; constructor.
  - apply update_return_pairs. exact Hc.
  - apply IH.
Qed.

Lemma encode_up_one_per_text : encode_one_per_text Sample.encode_up.
Proof.
  intros h texts es H. injection H as <-. apply length_map.
Qed.

Lemma appends_paired_when_returned_witness :
  Forall (fun r => is_raise (fst r) = false -> paired (snd r))
    (appends Sample.E_up [["New policy: gift cards never expire."]; []; ["a"; "b"]] Sample.w0).
Proof.
  apply (appends_paired_when_returned Sample.E_up
           [["New policy: gift cards never expire."]; []; ["a"; "b"]] Sample.w0).
  exact encode_up_one_per_text.
Defined.

(** C3, as the spec has it, fails: the provider answers at the start and is
    unreachable at the first append, after which six entries stand against
    five embeddings. *)
Lemma paired_after_each_append_fails :
  ~ paired_after_each_append Sample.E_once [["New policy: gift cards never expire."]].
Proof.
  intro H. specialize (H Sample.w0 eq_refl).
  inversion H as [|r rs Hp _]; subst.
  vm_compute in Hp. discriminate Hp.
Qed.

(** ** Retrieval never raises *)

Lemma retrieve_relevant_context_unfold E q k w :
  retrieve_relevant_context E q k w =
  match retrieve_body E q k w with
  | (Return out, w') => (Return out, w')
  | (Raise e, w') =>
      (Return [],
       record (LogError (String.append "Error in retrieve_relevant_context: " (str_exn e))) w')
  end.
Proof.
  unfold retrieve_relevant_context, try_except.
  destruct (retrieve_body E q k w) as [[out|e] w']; reflexivity.
Qed.

Lemma rank_entries_unfold E q k w :
  rank_entries E q k w =
  let w1 := record (EncodeCall [q]) w in
  match sentence_model_encode E (history w) [q] with
  | Raise e => (Raise e, w1)
  | Return qe =>
      let w2 := record CosineCall w1 in
      match cosine_similarity E qe (knowledge_embeddings w) with
      | Raise e => (Raise e, w2)
      | Return rows =>
          match getitem rows 0 with
          | Raise e => (Raise e, w2)
          | Return sims => (Return (sims, top_indices E sims k), w2)
          end
      end
  end.
Proof.
  unfold rank_entries, bind, encode, call, gets, lift, ret. simpl.
  destruct (sentence_model_encode E (history w) [q]) as [qe|e]; [|reflexivity].
  simpl. destruct (cosine_similarity E qe (knowledge_embeddings w)) as [rows|e]; [|reflexivity].
  destruct (getitem rows 0); reflexivity.
Qed.

Lemma retrieve_body_unfold E q k w :
  retrieve_body E q k w =
  match rank_entries E q k w with
  | (Return ranked, w') => (traverse (getitem (knowledge_base w')) (snd ranked), w')
  | (Raise e, w') => (Raise e, w')
  end.
Proof.
  unfold retrieve_body, bind, gets, lift.
  destruct (rank_entries E q k w) as [[ranked|e] w']; reflexivity.
Qed.

Lemma rank_entries_preserves_knowledge_base E q k :
  preserves knowledge_base (rank_entries E q k).
Proof. unfold rank_entries, encode. frame. Qed.

Lemma traverse_getitem_out_of_range {A} (l : list A) (ids : list nat) (i : nat) :
  In i ids -> (length l <= i)%nat -> is_raise (traverse (getitem l) ids) = true.
Proof.
  induction ids as [|j ids IH]; simpl; [tauto|].
  intros [->|Hin] Hle.
  - unfold getitem. apply nth_error_None in Hle. rewrite Hle. reflexivity.
  - destruct (getitem l j); simpl; [|reflexivity].
    specialize (IH Hin Hle).
    destruct (traverse (getitem l) ids); simpl in *; [discriminate|reflexivity].
Qed.

Lemma retrieve_always_returns E q k w :
  exists out, fst (retrieve_relevant_context E q k w) = Return out.
Proof.
  rewrite retrieve_relevant_context_unfold.
  destruct (retrieve_body E q k w) as [[out|e] w']; simpl; eauto.
Qed.

(** C7. [retrieve_relevant_context] always returns a list and never raises
    to its caller; whenever a step inside it raises, that list is empty. In
    particular it is empty when the embedding provider raises, when the
    similarity computation raises, and when the index is corrupted so that a
    ranked position has no entry. *)
Theorem retrieve_degrades_gracefully E (query : string) (top_k : Z) (w : world) :
  (exists out, fst (retrieve_relevant_context E query top_k w) = Return out) /\
  (is_raise (fst (retrieve_body E query top_k w)) = true ->
   fst (retrieve_relevant_context E query top_k w) = Return []) /\
  (is_raise (sentence_model_encode E (history w) [query]) = true ->
   fst (retrieve_relevant_context E query top_k w) = Return []) /\
  (forall qe, sentence_model_encode E (history w) [query] = Return qe ->
   is_raise (cosine_similarity E qe (knowledge_embeddings w)) = true ->
   fst (retrieve_relevant_context E query top_k w) = Return []) /\
  (forall sims ids w' i, rank_entries E query top_k w = (Return (sims, ids), w') ->
   In i ids -> (length (knowledge_base w) <= i)%nat ->
   fst (retrieve_relevant_context E query top_k w) = Return []).
Proof.
  assert (Hraise : is_raise (fst (retrieve_body E query top_k w)) = true ->
                   fst (retrieve_relevant_context E query top_k w) = Return []).
  { rewrite retrieve_relevant_context_unfold.
    destruct (retrieve_body E query top_k w) as [[out|e] w']; simpl;
      [discriminate|reflexivity]. }
  split; [|split; [exact Hraise|split; [|split]]].
  - apply retrieve_always_returns.
  - intro Henc. apply Hraise.
    rewrite retrieve_body_unfold, rank_entries_unfold. cbv zeta.
    destruct (sentence_model_encode E (history w) [query]); [discriminate|reflexivity].
  - intros qe Henc Hcos. apply Hraise.
    rewrite retrieve_body_unfold, rank_entries_unfold. cbv zeta. rewrite Henc.
    destruct (cosine_similarity E qe (knowledge_embeddings w)); [discriminate|reflexivity].
  - intros sims ids w' i Hrank Hin Hle. apply Hraise.
    rewrite retrieve_body_unfold, Hrank. simpl.
    assert (Hkb : knowledge_base w' = knowledge_base w).
    { pose proof (rank_entries_preserves_knowledge_base E query top_k w) as H.
      rewrite Hrank in H. exact H. }
    rewrite Hkb. apply traverse_getitem_out_of_range with (i := i); assumption.
Qed.

Lemma retrieve_degrades_gracefully_witness :
  fst (retrieve_relevant_context Sample.E_down "What are your hours?" 2 Sample.w0) = Return [] /\
  fst (retrieve_relevant_context Sample.E_nosim "What are your hours?" 2 Sample.w0) = Return [].
Proof.
  split.
  - apply (proj1 (proj2 (proj2
      (retrieve_degrades_gracefully Sample.E_down "What are your hours?" 2 Sample.w0)))).
    reflexivity.
  - apply (proj1 (proj2 (proj2 (proj2
      (retrieve_degrades_gracefully Sample.E_nosim "What are your hours?" 2 Sample.w0))))
      (Sample.embed "What are your hours?" :: nil)).
    + reflexivity.
    + reflexivity.
Defined.

(** ** The uncertainty queue *)

Lemma evaluate_certainty_false_iff (query response : string) :
  evaluate_certainty query response = false <-> (String.length response <= 50)%nat.
Proof.
  unfold evaluate_certainty. rewrite Nat.ltb_ge. reflexivity.
Qed.

Lemma record_uncertainty_queue (query raw : string) (w : world) :
  fst (record_uncertainty query raw w) = Return tt /\
  uncertain_queries (snd (record_uncertainty query raw w)) =
    if evaluate_certainty query raw then uncertain_queries w
    else uncertain_queries w ++ [(query, raw)].
Proof.
  unfold record_uncertainty.
  destruct (evaluate_certainty query raw); simpl; split; reflexivity.
Qed.

Lemma generate_response_queue E query w raw pers w1 :
  answer_phase E query (snd (now E w)) = (Return (raw, pers), w1) ->
  uncertain_queries (snd (generate_response E query w)) =
    if evaluate_certainty query raw then uncertain_queries w
    else uncertain_queries w ++ [(query, raw)].
Proof.
  intro Hans.
  assert (Hq1 : uncertain_queries w1 = uncertain_queries w).
  { pose proof (answer_phase_preserves_queue E query (snd (now E w))) as H.
    rewrite Hans in H. exact H. }
  unfold generate_response, bind at 1. unfold now at 1, call at 1.
  unfold now, call in Hans. simpl in Hans.
  unfold try_except, generate_body, bind at 1. rewrite Hans. simpl fst. simpl snd.
  unfold bind at 1.
  destruct (record_uncertainty_queue query raw w1) as [Hret Hq2].
  destruct (record_uncertainty query raw w1) as [o w2]. simpl in Hret, Hq2. subst o.
  unfold bind at 1.
  pose proof (analytics_phase_preserves_queue E query
                (datetime_now E (history w)) w2) as Hq3.
  destruct (analytics_phase E query (datetime_now E (history w)) w2) as [[[]|e] w3];
    simpl in Hq3; simpl; rewrite Hq3, Hq2, Hq1; reflexivity.
Qed.

(** C9. When the pipeline has produced the answer [raw] to [query], the
    pair is appended to the uncertainty queue exactly when the certainty
    evaluator does not hold it certain, which is exactly when the answer has
    at most 50 characters; with an answer longer than 50 characters the
    queue is the one from before the request. *)
Theorem uncertain_iff_short_answer E (query : string) (w : world)
    (raw pers : string) (w1 : world) :
  answer_phase E query (snd (now E w)) = (Return (raw, pers), w1) ->
  (evaluate_certainty query raw = false <-> (String.length raw <= 50)%nat) /\
  ((String.length raw <= 50)%nat ->
   uncertain_queries (snd (generate_response E query w))
     = uncertain_queries w ++ [(query, raw)]) /\
  ((50 < String.length raw)%nat ->
   uncertain_queries (snd (generate_response E query w)) = uncertain_queries w).
Proof.
  intro Hans. pose proof (generate_response_queue E query w raw pers w1 Hans) as Hq.
  split; [apply evaluate_certainty_false_iff|split]; intro Hlen; rewrite Hq.
  - apply (proj2 (evaluate_certainty_false_iff query raw)) in Hlen.
    rewrite Hlen. reflexivity.
  - unfold evaluate_certainty. apply Nat.ltb_lt in Hlen. rewrite Hlen. reflexivity.
Qed.

Lemma uncertain_iff_short_answer_witness :
  uncertain_queries (snd (generate_response Sample.E_up "hi" Sample.w0))
    = [("hi", "Please check our website.")] /\
  uncertain_queries (snd (generate_response Sample.E_long "hi" Sample.w0)) = [].
Proof.
  split.
  - refine (proj1 (proj2 (uncertain_iff_short_answer Sample.E_up "hi" Sample.w0
              "Please check our website."
              "I understand your frustration. Please check our website. We'll do our best to help you."
              (snd (answer_phase Sample.E_up "hi" (snd (now Sample.E_up Sample.w0))))
              _)) _).
    + vm_compute. reflexivity.
    + vm_compute. lia.
  - refine (proj2 (proj2 (uncertain_iff_short_answer Sample.E_long "hi" Sample.w0
              "Our store is open from 9 AM to 5 PM, Monday to Friday, except on public holidays."
              "I understand your frustration. Our store is open from 9 AM to 5 PM, Monday to Friday, except on public holidays. We'll do our best to help you."
              (snd (answer_phase Sample.E_long "hi" (snd (now Sample.E_long Sample.w0))))
              _)) _).
    + vm_compute. reflexivity.
    + vm_compute. lia.
Defined.

(** ** Lists: sortedness, slices and rankings *)

Section Lists.

Context {A : Type}.

Lemma StronglySorted_app (R : A -> A -> Prop) (l1 l2 : list A) :
  StronglySorted R (l1 ++ l2) <->
  StronglySorted R l1 /\ StronglySorted R l2 /\
  forall a b, In a l1 -> In b l2 -> R a b.
Proof.
  induction l1 as [|x l1 IH]; simpl.
  - split.
    + intro H. repeat split; [constructor|exact H|intros a b []].
    + intros (_ & H & _). exact H.
  - split.
    + intro H. apply StronglySorted_inv in H. destruct H as [Hs Hf].
      apply IH in Hs. destruct Hs as (H1 & H2 & H12).
      rewrite Forall_app in Hf. destruct Hf as [Hf1 Hf2].
      repeat split.
      * constructor; assumption.
      * exact H2.
      * intros a b [<-|Ha] Hb.
        -- rewrite Forall_forall in Hf2. apply Hf2, Hb.
        -- apply H12; assumption.
    + intros (H1 & H2 & H12).
      apply StronglySorted_inv in H1. destruct H1 as [Hs Hf].
      constructor.
      * apply IH. repeat split; [exact Hs|exact H2|].
        intros a b Ha Hb. apply H12; [right; exact Ha|exact Hb].
      * rewrite Forall_app. split; [exact Hf|].
        rewrite Forall_forall. intros b Hb. apply H12; [left; reflexivity|exact Hb].
Qed.

Lemma StronglySorted_skipn (R : A -> A -> Prop) (n : nat) (l : list A) :
  StronglySorted R l -> StronglySorted R (skipn n l).
Proof.
  intro H. rewrite <- (firstn_skipn n l) in H.
  apply StronglySorted_app in H. tauto.
Qed.

Lemma StronglySorted_rev (R : A -> A -> Prop) (l : list A) :
  StronglySorted R l -> StronglySorted (fun a b => R b a) (rev l).
Proof.
  induction 1 as [|x l Hs IH Hf]; simpl.
  - constructor.
  - apply StronglySorted_app. repeat split.
    + exact IH.
    + constructor; constructor.
    + intros a b Ha [<-|[]]. apply in_rev in Ha.
      rewrite Forall_forall in Hf. apply Hf, Ha.
Qed.

Lemma StronglySorted_weaken (R S : A -> A -> Prop) (l : list A) :
  (forall a b, R a b -> S a b) -> StronglySorted R l -> StronglySorted S l.
Proof.
  intros HRS. induction 1 as [|x l Hs IH Hf]; constructor.
  - exact IH.
  - eapply Forall_impl; [|exact Hf]. intros b. apply HRS.
Qed.

Lemma slice_from_suffix (start : Z) (l : list A) :
  exists pre, l = pre ++ slice_from start l.
Proof.
  unfold slice_from. eexists. symmetry. apply firstn_skipn.
Qed.

Lemma slice_from_length (start : Z) (l : list A) :
  Z.of_nat (length (slice_from start l)) =
  if start <? 0 then Z.min (- start) (Z.of_nat (length l))
  else Z.max 0 (Z.of_nat (length l) - start).
Proof.
  unfold slice_from. rewrite length_skipn.
  destruct (Z.ltb_spec start 0); lia.
Qed.

Lemma slice_from_all (start : Z) (l : list A) :
  start <= - Z.of_nat (length l) \/ start = 0 -> slice_from start l = l.
Proof.
  intro H. unfold slice_from.
  destruct (Z.ltb_spec start 0).
  - replace (Z.to_nat (Z.max 0 (Z.of_nat (length l) + start))) with O by lia.
    reflexivity.
  - replace (Z.to_nat (Z.min start (Z.of_nat (length l)))) with O by lia.
    reflexivity.
Qed.

Lemma traverse_getitem_in_range (d : A) (l : list A) (ids : list nat) :
  Forall (fun i => (i < length l)%nat) ids ->
  traverse (getitem l) ids = Return (map (fun i => nth i l d) ids).
Proof.
  induction 1 as [|i ids Hi Hf IH]; simpl.
  - reflexivity.
  - unfold getitem at 1.
    destruct (nth_error l i) as [x|] eqn:Hn.
    + simpl. rewrite IH. simpl. rewrite (nth_error_nth _ _ d Hn). reflexivity.
    + apply nth_error_None in Hn. lia.
Qed.

Lemma traverse_length {B} (f : A -> outcome B) (l : list A) (out : list B) :
  traverse f l = Return out -> length out = length l.
Proof.
  revert out. induction l as [|x l IH]; simpl; intros out H.
  - injection H as <-. reflexivity.
  - destruct (f x) as [y|e]; simpl in H; [|discriminate].
    destruct (traverse f l) as [ys|e]; simpl in H; [|discriminate].
    injection H as <-. simpl. rewrite (IH ys eq_refl). reflexivity.
Qed.

Lemma traverse_nth_error {B} (f : A -> outcome B) (l : list A) (out : list B)
    (i : nat) (x : A) :
  traverse f l = Return out -> nth_error l i = Some x ->
  exists y, nth_error out i = Some y /\ f x = Return y.
Proof.
  revert out i. induction l as [|a l IH]; simpl; intros out i H Hn.
  - destruct i; discriminate.
  - destruct (f a) as [y|e] eqn:Hf; simpl in H; [|discriminate].
    destruct (traverse f l) as [ys|e]; simpl in H; [|discriminate].
    injection H as <-. destruct i as [|i]; simpl in *.
    + injection Hn as <-. eauto.
    + apply (IH ys i eq_refl Hn).
Qed.

Lemma traverse_total {B} (f : A -> outcome B) (l : list A) :
  Forall (fun x => is_raise (f x) = false) l -> exists out, traverse f l = Return out.
Proof.
  induction 1 as [|x l Hx Hf [ys IH]]; simpl.
  - eauto.
  - destruct (f x) as [y|e]; [|discriminate]. simpl. rewrite IH. simpl. eauto.
Qed.

Lemma traverse_raises {B} (f : A -> outcome B) (l : list A) (x : A) :
  In x l -> is_raise (f x) = true -> is_raise (traverse f l) = true.
Proof.
  induction l as [|a l IH]; simpl; [tauto|].
  intros [->|Hin] Hx.
  - destruct (f x); [discriminate|reflexivity].
  - destruct (f a); simpl; [|reflexivity].
    specialize (IH Hin Hx).
    destruct (traverse f l); simpl in *; [discriminate|reflexivity].
Qed.

Lemma map_nth_seq_all (d : A) (l : list A) :
  map (fun i => nth i l d) (seq 0 (length l)) = l.
Proof.
  induction l as [|a l IH]; simpl.
  - reflexivity.
  - rewrite <- seq_shift, map_map. simpl. rewrite IH. reflexivity.
Qed.

End Lists.

Lemma ranks_before_rev (l : list nat) (a b : nat) :
  ranks_before l a b -> ranks_before (rev l) b a.
Proof.
  intros (l1 & l2 & l3 & ->). exists (rev l3), (rev l2), (rev l1).
  rewrite rev_app_distr. simpl. rewrite rev_app_distr. simpl.
  repeat rewrite <- app_assoc. reflexivity.
Qed.

Lemma ranks_before_total (l : list nat) (a b : nat) :
  In a l -> In b l -> a <> b -> ranks_before l a b \/ ranks_before l b a.
Proof.
  intros Ha Hb Hab. apply in_split in Ha. destruct Ha as (l1 & l2 & ->).
  apply in_app_or in Hb. destruct Hb as [Hb|[Hb|Hb]].
  - right. apply in_split in Hb. destruct Hb as (m1 & m2 & ->).
    exists m1, m2, l2. rewrite <- app_assoc. reflexivity.
  - contradiction.
  - left. apply in_split in Hb. destruct Hb as (m1 & m2 & ->).
    exists l1, m1, m2. reflexivity.
Qed.

Lemma StronglySorted_ranks_before (R : nat -> nat -> Prop) (l : list nat) (a b : nat) :
  StronglySorted R l -> ranks_before l a b -> R a b.
Proof.
  intros Hs (l1 & l2 & l3 & ->).
  apply StronglySorted_app in Hs. destruct Hs as (_ & Hs & _).
  apply StronglySorted_inv in Hs. destruct Hs as [_ Hf].
  rewrite Forall_forall in Hf. apply Hf. apply in_or_app. right. left. reflexivity.
Qed.

(** ** The ranking *)

Lemma Qltb_true (x y : Q) : Qltb x y = true -> (x < y)%Q.
Proof.
  unfold Qltb. intro H. apply negb_true_iff in H.
  apply Qnot_le_lt. intro Hc. apply Qle_bool_iff in Hc. congruence.
Qed.

Lemma Qltb_false (x y : Q) : Qltb x y = false -> (y <= x)%Q.
Proof.
  unfold Qltb. intro H. apply negb_false_iff in H. apply Qle_bool_iff. exact H.
Qed.

Lemma insert_by_perm (xs : list Q) (rank : nat -> nat) (i : nat) (l : list nat) :
  Permutation (insert_by xs rank i l) (i :: l).
Proof.
  induction l as [|j l IH]; simpl.
  - reflexivity.
  - destruct (precedes xs rank i j).
    + reflexivity.
    + rewrite IH. apply perm_swap.
Qed.

Lemma fold_insert_perm (xs : list Q) (rank : nat -> nat) (ids : list nat) :
  Permutation (fold_right (insert_by xs rank) [] ids) ids.
Proof.
  induction ids as [|i ids IH]; simpl.
  - reflexivity.
  - rewrite insert_by_perm. constructor. exact IH.
Qed.

Lemma argsort_perm E (xs : list Q) :
  Permutation (argsort E xs) (seq 0 (length xs)).
Proof. apply fold_insert_perm. Qed.

Lemma earlier_first_le (xs : list Q) (rank : nat -> nat) (a b : nat) :
  earlier_first xs rank a b -> (sim_at xs a <= sim_at xs b)%Q.
Proof.
  intros [H|[H _]].
  - apply Qlt_le_weak, H.
  - rewrite H. apply Qle_refl.
Qed.

Lemma earlier_first_trans (xs : list Q) (rank : nat -> nat) (a b c : nat) :
  earlier_first xs rank a b -> earlier_first xs rank b c -> earlier_first xs rank a c.
Proof.
  unfold earlier_first. intros [Hab|[Hab Rab]] [Hbc|[Hbc Rbc]].
  - left. eapply Qlt_trans; eassumption.
  - left. rewrite <- Hbc. exact Hab.
  - left. rewrite Hab. exact Hbc.
  - right. split; [rewrite Hab; exact Hbc|lia].
Qed.

Lemma precedes_true (xs : list Q) (rank : nat -> nat) (i j : nat) :
  precedes xs rank i j = true -> (i < j)%nat -> earlier_first xs rank i j.
Proof.
  unfold precedes. fold (sim_at xs i). fold (sim_at xs j).
  intros H Hij. apply orb_true_iff in H. destruct H as [H|H].
  - left. apply Qltb_true. exact H.
  - apply andb_true_iff in H. destruct H as [Hle Hr].
    apply Qle_bool_iff in Hle. apply Nat.leb_le in Hr.
    apply Qle_lteq in Hle. destruct Hle as [Hlt|Heq].
    + left. exact Hlt.
    + right. split; [exact Heq|lia].
Qed.

Lemma precedes_false (xs : list Q) (rank : nat -> nat) (i j : nat) :
  precedes xs rank i j = false -> earlier_first xs rank j i.
Proof.
  unfold precedes. fold (sim_at xs i). fold (sim_at xs j).
  intros H. apply orb_false_iff in H. destruct H as [Hlt Hand].
  apply Qltb_false in Hlt. apply Qle_lteq in Hlt. destruct Hlt as [Hlt|Heq].
  - left. exact Hlt.
  - right. split; [exact Heq|].
    apply andb_false_iff in Hand. destruct Hand as [Hle|Hr].
    + exfalso. assert (Hle' : (sim_at xs i <= sim_at xs j)%Q).
      { rewrite Heq. apply Qle_refl. }
      apply Qle_bool_iff in Hle'. congruence.
    + apply Nat.leb_gt in Hr. left. exact Hr.
Qed.

Lemma insert_by_sorted (xs : list Q) (rank : nat -> nat) (i : nat) (l : list nat) :
  StronglySorted (earlier_first xs rank) l ->
  Forall (fun j => (i < j)%nat) l ->
  StronglySorted (earlier_first xs rank) (insert_by xs rank i l).
Proof.
  induction 1 as [|j l Hs IH Hf]; intro Hlt; simpl.
  - constructor; constructor.
  - apply Forall_cons_iff in Hlt. destruct Hlt as [Hij Hlt].
    destruct (precedes xs rank i j) eqn:Hp.
    + pose proof (precedes_true xs rank i j Hp Hij) as Hfirst.
      constructor.
      * constructor; assumption.
      * constructor; [exact Hfirst|].
        rewrite Forall_forall in *. intros k Hk.
        apply (earlier_first_trans xs rank i j k Hfirst). apply Hf, Hk.
    + pose proof (precedes_false xs rank i j Hp) as Hji.
      constructor.
      * apply IH. exact Hlt.
      * rewrite Forall_forall in *. intros k Hk.
        apply (Permutation_in _ (insert_by_perm xs rank i l)) in Hk.
        destruct Hk as [<-|Hk].
        -- exact Hji.
        -- apply Hf, Hk.
Qed.

Lemma fold_insert_sorted (xs : list Q) (rank : nat -> nat) (start len : nat) :
  StronglySorted (earlier_first xs rank)
    (fold_right (insert_by xs rank) [] (seq start len)).
Proof.
  revert start. induction len as [|len IH]; intro start; simpl.
  - constructor.
  - apply insert_by_sorted.
    + apply IH.
    + rewrite Forall_forall. intros j Hj.
      apply (Permutation_in _ (fold_insert_perm xs rank (seq (S start) len))) in Hj.
      apply in_seq in Hj. lia.
Qed.

Lemma argsort_sorted E (xs : list Q) :
  StronglySorted (earlier_first xs (argsort_ties E xs)) (argsort E xs).
Proof. apply fold_insert_sorted. Qed.

Lemma top_indices_sorted E (sims : list Q) (top_k : Z) :
  StronglySorted (later_first sims (argsort_ties E sims)) (top_indices E sims top_k).
Proof.
  unfold top_indices.
  apply (StronglySorted_rev (earlier_first sims (argsort_ties E sims))).
  apply StronglySorted_skipn. apply argsort_sorted.
Qed.

Lemma top_indices_split E (sims : list Q) (top_k : Z) :
  exists pre, argsort E sims = pre ++ rev (top_indices E sims top_k).
Proof.
  unfold top_indices. rewrite rev_involutive. apply slice_from_suffix.
Qed.

Lemma top_indices_in_range E (sims : list Q) (top_k : Z) (i : nat) :
  In i (top_indices E sims top_k) -> (i < length sims)%nat.
Proof.
  intro Hin. destruct (top_indices_split E sims top_k) as [pre Hsplit].
  assert (Hi : In i (argsort E sims)).
  { rewrite Hsplit. apply in_or_app. right.
    apply (proj1 (in_rev (top_indices E sims top_k) i)). exact Hin. }
  apply (Permutation_in _ (argsort_perm E sims)) in Hi.
  apply in_seq in Hi. lia.
Qed.

Lemma top_indices_NoDup E (sims : list Q) (top_k : Z) :
  NoDup (top_indices E sims top_k).
Proof.
  destruct (top_indices_split E sims top_k) as [pre Hsplit].
  assert (Hnd : NoDup (argsort E sims)).
  { apply (Permutation_NoDup (Permutation_sym (argsort_perm E sims))). apply seq_NoDup. }
  rewrite Hsplit in Hnd. apply NoDup_app_remove_l in Hnd.
  apply NoDup_rev in Hnd. rewrite rev_involutive in Hnd. exact Hnd.
Qed.

Lemma top_indices_length E (sims : list Q) (top_k : Z) :
  Z.of_nat (length (top_indices E sims top_k)) =
  if 0 <? top_k then Z.min top_k (Z.of_nat (length sims))
  else Z.max 0 (Z.of_nat (length sims) + top_k).
Proof.
  unfold top_indices. rewrite length_rev, slice_from_length.
  assert (Hlen : length (argsort E sims) = length sims).
  { rewrite (Permutation_length (argsort_perm E sims)). apply length_seq. }
  rewrite Hlen.
  destruct (Z.ltb_spec (- top_k) 0); destruct (Z.ltb_spec 0 top_k); lia.
Qed.

Lemma top_indices_all E (sims : list Q) (top_k : Z) :
  Z.of_nat (length sims) <= top_k \/ top_k = 0 ->
  Permutation (top_indices E sims top_k) (seq 0 (length sims)).
Proof.
  intro H. unfold top_indices. rewrite slice_from_all.
  - rewrite <- Permutation_rev. apply argsort_perm.
  - rewrite (Permutation_length (argsort_perm E sims)), length_seq. lia.
Qed.

(** Whatever is ranked is at least as similar as whatever is left out. *)
Lemma top_indices_highest E (sims : list Q) (top_k : Z) (i j : nat) :
  In i (top_indices E sims top_k) -> (j < length sims)%nat ->
  ~ In j (top_indices E sims top_k) ->
  (sim_at sims j <= sim_at sims i)%Q.
Proof.
  intros Hi Hj Hnj. destruct (top_indices_split E sims top_k) as [pre Hsplit].
  pose proof (argsort_sorted E sims) as Hs. rewrite Hsplit in Hs.
  apply StronglySorted_app in Hs. destruct Hs as (_ & _ & Hcross).
  apply (earlier_first_le sims (argsort_ties E sims)). apply Hcross.
  - assert (Hin : In j (argsort E sims)).
    { apply (Permutation_in _ (Permutation_sym (argsort_perm E sims))).
      apply in_seq. lia. }
    rewrite Hsplit in Hin. apply in_app_or in Hin. destruct Hin as [Hin|Hin].
    + exact Hin.
    + exfalso. apply Hnj. apply (proj2 (in_rev (top_indices E sims top_k) j)). exact Hin.
  - apply (proj1 (in_rev (top_indices E sims top_k) i)). exact Hi.
Qed.

Lemma later_first_descending (sims : list Q) (rank : nat -> nat) (ids : list nat) :
  StronglySorted (later_first sims rank) ids -> descending sims ids.
Proof.
  apply StronglySorted_weaken. intros a b H. apply (earlier_first_le sims rank b a). exact H.
Qed.

Lemma top_indices_descending E (sims : list Q) (top_k : Z) :
  descending sims (top_indices E sims top_k).
Proof.
  apply (later_first_descending sims (argsort_ties E sims)). apply top_indices_sorted.
Qed.

(** When the sort keeps equal values in position order, among equally
    similar entries the later one is ranked first, and when the earlier one
    is returned so is the later one. *)
Lemma top_indices_ties E (sims : list Q) (top_k : Z) (i j : nat) :
  position_keeping (argsort_ties E sims) ->
  (i < j)%nat -> (j < length sims)%nat ->
  (sim_at sims i == sim_at sims j)%Q ->
  In i (top_indices E sims top_k) ->
  ranks_before (top_indices E sims top_k) j i.
Proof.
  intros Hkeep Hij Hj Heq Hi.
  assert (Hno : ~ earlier_first sims (argsort_ties E sims) j i).
  { specialize (Hkeep i j Hij). intros [H|[_ H]].
    - rewrite Heq in H. exact (Qlt_irrefl _ H).
    - lia. }
  destruct (top_indices_split E sims top_k) as [pre Hsplit].
  pose proof (argsort_sorted E sims) as Hs. rewrite Hsplit in Hs.
  apply StronglySorted_app in Hs. destruct Hs as (_ & Hsuf & Hcross).
  assert (Hin : In j (top_indices E sims top_k)).
  { assert (Hja : In j (argsort E sims)).
    { apply (Permutation_in _ (Permutation_sym (argsort_perm E sims))).
      apply in_seq. lia. }
    rewrite Hsplit in Hja. apply in_app_or in Hja. destruct Hja as [Hja|Hja].
    - exfalso. apply Hno. apply Hcross; [exact Hja|].
      apply (proj1 (in_rev (top_indices E sims top_k) i)). exact Hi.
    - apply (proj2 (in_rev (top_indices E sims top_k) j)). exact Hja. }
  destruct (ranks_before_total (top_indices E sims top_k) j i Hin Hi) as [H|H].
  - lia.
  - exact H.
  - exfalso. apply Hno.
    apply (StronglySorted_ranks_before (earlier_first sims (argsort_ties E sims))
             (rev (top_indices E sims top_k))); [exact Hsuf|].
    apply ranks_before_rev. exact H.
Qed.

Lemma rank_entries_inv E q k w sims ids w' :
  rank_entries E q k w = (Return (sims, ids), w') ->
  ids = top_indices E sims k /\
  knowledge_base w' = knowledge_base w /\
  exists qe rows,
    sentence_model_encode E (history w) [q] = Return qe /\
    cosine_similarity E qe (knowledge_embeddings w) = Return (sims :: rows).
Proof.
  rewrite rank_entries_unfold. cbv zeta.
  destruct (sentence_model_encode E (history w) [q]) as [qe|e] eqn:Henc; [|discriminate].
  destruct (cosine_similarity E qe (knowledge_embeddings w)) as [rows|e] eqn:Hcos;
    [|discriminate].
  destruct rows as [|row rows]; simpl; [discriminate|].
  intro H. injection H as <- <- <-.
  repeat split. exists qe, rows. split; [reflexivity|exact Hcos].
Qed.

(** C2, as the code has it. The code has no tie-break of its own: equally
    similar entries come out in the order [argsort] leaves them in, read
    backwards. So when [argsort] keeps equal similarities in position order
    on the row of the call (the insertion sort of NumPy's generic path does
    on short arrays; the default kind does not promise it), and two stored
    entries are equally similar to the query and the one with the lower id
    is returned, the one with the higher id is returned too and stands
    before it. *)
Theorem highest_id_first E (query : string) (top_k : Z) (w : world)
    (sims : list Q) (ids : list nat) (w' : world) (i j : nat) :
  rank_entries E query top_k w = (Return (sims, ids), w') ->
  position_keeping (argsort_ties E sims) ->
  (i < j)%nat -> (j < length sims)%nat ->
  (sim_at sims i == sim_at sims j)%Q ->
  In i ids ->
  ranks_before ids j i.
Proof.
  intros Hrank Hkeep Hij Hj Heq Hi.
  apply rank_entries_inv in Hrank. destruct Hrank as (-> & _).
  apply top_indices_ties; assumption.
Qed.

Lemma highest_id_first_witness : ranks_before [1%nat; 0%nat] 1 0.
Proof.
  apply (highest_id_first Sample.E_up "Can I return an item?" 2 Sample.w_tie
           [(33 * 21 + 82 * 67)%Q; (33 * 21 + 82 * 67)%Q] [1%nat; 0%nat]
           (snd (rank_entries Sample.E_up "Can I return an item?" 2 Sample.w_tie)) 0 1).
  - vm_compute. reflexivity.
  - intros a b Hab. simpl. lia.
  - lia.
  - simpl. lia.
  - vm_compute. reflexivity.
  - simpl. tauto.
Defined.

(** The order among equal similarities is the library's: with a sort that
    leaves equal values in the opposite order, the same two entries come out
    lower id first. *)
Lemma tie_order_is_the_librarys :
  fst (rank_entries Demo.E_backwards "Can I return an item?" 2 Sample.w_tie)
  = Return ([(33 * 21 + 82 * 67)%Q; (33 * 21 + 82 * 67)%Q], [0%nat; 1%nat]).
Proof. vm_compute. reflexivity. Qed.

(** C2, as the spec has it, fails: with a sort that leaves equal values
    where they are, as an insertion sort does, of two equally similar
    entries, both returned, the one with id 1 stands before the one with
    id 0. *)
Lemma lowest_id_first_fails :
  ~ lowest_id_first Sample.E_up "Can I return an item?" 2 Sample.w_tie.
Proof.
  intro H.
  assert (Hrank : rank_entries Sample.E_up "Can I return an item?" 2 Sample.w_tie =
                  (Return ([(33 * 21 + 82 * 67)%Q; (33 * 21 + 82 * 67)%Q], [1%nat; 0%nat]),
                   snd (rank_entries Sample.E_up "Can I return an item?" 2 Sample.w_tie))).
  { vm_compute. reflexivity. }
  specialize (H _ _ _ Hrank 0%nat 1%nat).
  destruct H as (l1 & l2 & l3 & Hl).
  - lia.
  - simpl. tauto.
  - simpl. tauto.
  - vm_compute. reflexivity.
  - destruct l1 as [|x [|y l1]]; simpl in Hl.
    + discriminate Hl.
    + injection Hl as _ Hl. destruct l2; discriminate Hl.
    + injection Hl as _ _ Hl. destruct l1; discriminate Hl.
Qed.

Lemma retrieve_returns_ranked E q k w sims ids w' :
  rank_entries E q k w = (Return (sims, ids), w') ->
  length sims = length (knowledge_base w) ->
  fst (retrieve_relevant_context E q k w)
    = Return (map (fun i => nth i (knowledge_base w) "") ids).
Proof.
  intros Hrank Hlen.
  rewrite retrieve_relevant_context_unfold, retrieve_body_unfold, Hrank. simpl.
  apply rank_entries_inv in Hrank. destruct Hrank as (-> & -> & _).
  rewrite (traverse_getitem_in_range "").
  - reflexivity.
  - rewrite Forall_forall. intros i Hi. rewrite <- Hlen.
    apply (top_indices_in_range E sims k). exact Hi.
Qed.

Lemma rank_entries_row_length E q k w sims ids w' :
  similarity_row_per_entry E ->
  rank_entries E q k w = (Return (sims, ids), w') ->
  length sims = length (knowledge_embeddings w).
Proof.
  intros Hc Hrank. apply rank_entries_inv in Hrank.
  destruct Hrank as (_ & _ & qe & rows & _ & Hcos).
  apply Hc in Hcos. apply Forall_inv in Hcos. exact Hcos.
Qed.

(** For a positive [top_k] the list returned never has more than [top_k]
    entries, whatever happens inside. *)
Lemma retrieve_at_most_top_k E q k w out :
  0 < k ->
  fst (retrieve_relevant_context E q k w) = Return out ->
  Z.of_nat (length out) <= k.
Proof.
  intros Hk. rewrite retrieve_relevant_context_unfold, retrieve_body_unfold.
  destruct (rank_entries E q k w) as [[[sims ids]|e] w1] eqn:Hrank; simpl.
  - destruct (traverse (getitem (knowledge_base w1)) ids) as [l|e] eqn:Ht; simpl.
    + intro H. injection H as <-.
      rewrite (traverse_length _ _ _ Ht).
      apply rank_entries_inv in Hrank. destruct Hrank as (-> & _).
      rewrite top_indices_length.
      apply Z.ltb_lt in Hk. rewrite Hk. lia.
    + intro H. injection H as <-. simpl. lia.
  - intro H. injection H as <-. simpl. lia.
Qed.

(** C6, as the code has it. For a positive [top_k],
    [retrieve_relevant_context] never returns more than [top_k] entries, on
    any index. On an index that pairs entries with embeddings, when the
    embedding and the similarity calls return (one similarity per stored
    embedding), it returns the entries at the ranked positions:
    [min(top_k, count)] of them, set in non-increasing similarity to the
    query, none twice, each at least as similar as every entry left out; and
    when [top_k] is not below the entry count, they are all the stored
    entries. *)
Theorem retrieve_top_k_descending E (query : string) (top_k : Z) (w : world) :
  0 < top_k ->
  (forall out, fst (retrieve_relevant_context E query top_k w) = Return out ->
               Z.of_nat (length out) <= top_k) /\
  (forall sims ids w',
     paired w ->
     similarity_row_per_entry E ->
     rank_entries E query top_k w = (Return (sims, ids), w') ->
     fst (retrieve_relevant_context E query top_k w)
       = Return (map (fun i => nth i (knowledge_base w) "") ids) /\
     Z.of_nat (length ids) = Z.min top_k (Z.of_nat (length (knowledge_base w))) /\
     descending sims ids /\
     NoDup ids /\
     (forall i j, In i ids -> (j < length (knowledge_base w))%nat -> ~ In j ids ->
                  (sim_at sims j <= sim_at sims i)%Q) /\
     (Z.of_nat (length (knowledge_base w)) <= top_k ->
      Permutation ids (seq 0 (length (knowledge_base w))) /\
      Permutation (map (fun i => nth i (knowledge_base w) "") ids) (knowledge_base w))).
Proof.
  intros Hk. split.
  { intros out. apply retrieve_at_most_top_k. exact Hk. }
  intros sims ids w' Hpaired Hc Hrank.
  assert (Hlen : length sims = length (knowledge_base w)).
  { rewrite Hpaired. apply (rank_entries_row_length E query top_k w sims ids w' Hc Hrank). }
  split; [apply (retrieve_returns_ranked E query top_k w sims ids w' Hrank Hlen)|].
  apply rank_entries_inv in Hrank. destruct Hrank as (-> & _).
  split.
  { rewrite top_indices_length, Hlen. apply Z.ltb_lt in Hk. rewrite Hk. reflexivity. }
  split; [apply top_indices_descending|].
  split; [apply top_indices_NoDup|]. split.
  - intros i j Hi Hj Hnj. rewrite <- Hlen in Hj.
    apply (top_indices_highest E sims top_k i j Hi Hj Hnj).
  - intro Hall. rewrite <- Hlen in Hall.
    assert (Hperm : Permutation (top_indices E sims top_k) (seq 0 (length (knowledge_base w)))).
    { rewrite <- Hlen. apply top_indices_all. left. exact Hall. }
    split; [exact Hperm|].
    rewrite (Permutation_map _ Hperm).
    rewrite (map_nth_seq_all "" (knowledge_base w)). reflexivity.
Qed.

Lemma similarity_row_per_entry_up : similarity_row_per_entry Sample.E_up.
Proof.
  intros X Y rows. simpl. unfold Sample.similarity.
  destruct X as [|x X]; [discriminate|]. destruct Y as [|y Y]; [discriminate|].
  intro H. injection H as <-.
  rewrite Forall_forall. intros row Hrow.
  change (In row (map (fun x0 => map (Sample.dot x0) (y :: Y)) (x :: X))) in Hrow.
  apply in_map_iff in Hrow. destruct Hrow as (x0 & <- & _).
  apply length_map.
Qed.

Lemma retrieve_top_k_descending_witness :
  fst (retrieve_relevant_context Sample.E_up "What are your hours?" 2 Sample.w0)
    = Return [ "We offer refunds within 30 days of purchase with a valid receipt.";
               "To reset your password, click on the 'Forgot Password' link on the login page." ].
Proof.
  refine (proj1 (proj2 (retrieve_top_k_descending Sample.E_up "What are your hours?" 2
                          Sample.w0 _)
            (map (Sample.dot (Sample.embed "What are your hours?"))
                 (knowledge_embeddings Sample.w0))
            [2%nat; 1%nat]
            (snd (rank_entries Sample.E_up "What are your hours?" 2 Sample.w0))
            _ similarity_row_per_entry_up _)).
  - lia.
  - reflexivity.
  - vm_compute. reflexivity.
Defined.

(** C6, as the spec has it, fails: on the index one failed append leaves,
    six entries against five embeddings, a retrieval with [top_k = 10]
    raises nowhere and returns five entries, not the six stored. *)
Lemma returns_all_when_k_exceeds_fails :
  ~ returns_all_when_k_exceeds Demo.E_second_fails "What are your hours?" 10
      Demo.w_unpaired.
Proof.
  intro H. destruct H as (out & Hout & _ & Hall).
  - lia.
  - discriminate.
  - vm_compute in Hout. injection Hout as <-.
    assert (Hlt : Z.of_nat (length (knowledge_base Demo.w_unpaired)) < 10)
      by (vm_compute; reflexivity).
    apply Hall in Hlt. apply Permutation_length in Hlt. vm_compute in Hlt.
    discriminate Hlt.
Qed.

(** ** Non-positive arguments *)

Lemma cluster_uncertain_queries_unfold E n w :
  cluster_uncertain_queries E n w =
  let uq := uncertain_queries w in
  if Z.of_nat (length uq) <? n then (Return uq, w)
  else
    let queries := map fst uq in
    let w1 := record (SelfEncodeCall queries) w in
    match self_sentence_model_encode E (history w) queries with
    | Raise e => (Raise e, w1)
    | Return embeddings =>
        let w2 := record (KMeansCall n) w1 in
        match KMeans_fit E (history w1) n embeddings with
        | Raise e => (Raise e, w2)
        | Return fit => (traverse (representative E uq embeddings fit) (range n), w2)
        end
    end.
Proof.
  unfold cluster_uncertain_queries, bind, gets, self_encode, call, lift. simpl.
  destruct (Z.of_nat (length (uncertain_queries w)) <? n); [reflexivity|].
  destruct (self_sentence_model_encode E (history w) (map fst (uncertain_queries w)))
    as [embeddings|e]; [|reflexivity].
  simpl.
  destruct (KMeans_fit E (history w ++ [SelfEncodeCall (map fst (uncertain_queries w))])
              n embeddings);
    reflexivity.
Qed.

(** C8, as the code has it. With a non-positive [n_clusters] the curation
    pass raises: the guard on the queue length lets it through, and the
    provider or the clustering routine, which refuses a cluster count below
    1, raises. With a non-positive [top_k] the retrieval does not fail: it
    returns a list, and when ranking succeeds with one similarity per stored
    entry, the list holds the entries at the positions the slice keeps:
    [max(0, count + top_k)] of them, none twice, in non-increasing
    similarity, every entry left out being at most as similar as every
    entry returned; so all entries for [top_k = 0], and all but the [-top_k]
    least similar ones for a negative [top_k]. *)
Theorem nonpositive_arguments E (query : string) (top_k n_clusters : Z) (w : world) :
  top_k <= 0 -> n_clusters <= 0 -> kmeans_rejects_below_one E ->
  (exists out, fst (retrieve_relevant_context E query top_k w) = Return out) /\
  (forall sims ids w', rank_entries E query top_k w = (Return (sims, ids), w') ->
     length sims = length (knowledge_base w) ->
     fst (retrieve_relevant_context E query top_k w)
       = Return (map (fun i => nth i (knowledge_base w) "") ids) /\
     Z.of_nat (length ids) = Z.max 0 (Z.of_nat (length (knowledge_base w)) + top_k) /\
     descending sims ids /\
     NoDup ids /\
     (forall i, In i ids -> (i < length (knowledge_base w))%nat) /\
     (forall i j, In i ids -> (j < length (knowledge_base w))%nat -> ~ In j ids ->
                  (sim_at sims j <= sim_at sims i)%Q) /\
     (top_k = 0 ->
      Permutation ids (seq 0 (length (knowledge_base w))) /\
      Permutation (map (fun i => nth i (knowledge_base w) "") ids) (knowledge_base w))) /\
  is_raise (fst (cluster_uncertain_queries E n_clusters w)) = true.
Proof.
  intros Hk Hn Hkm. split; [|split].
  - apply retrieve_always_returns.
  - intros sims ids w' Hrank Hlen.
    split; [apply (retrieve_returns_ranked E query top_k w sims ids w' Hrank Hlen)|].
    apply rank_entries_inv in Hrank. destruct Hrank as (-> & _).
    split.
    { rewrite top_indices_length, Hlen.
      destruct (Z.ltb_spec 0 top_k); [lia|reflexivity]. }
    split; [apply top_indices_descending|].
    split; [apply top_indices_NoDup|].
    split.
    { intros i Hi. rewrite <- Hlen. apply (top_indices_in_range E sims top_k i Hi). }
    split.
    { intros i j Hi Hj Hnj. rewrite <- Hlen in Hj.
      apply (top_indices_highest E sims top_k i j Hi Hj Hnj). }
    intros Hzero.
    assert (Hperm : Permutation (top_indices E sims top_k)
                                (seq 0 (length (knowledge_base w)))).
    { rewrite <- Hlen. apply top_indices_all. right. exact Hzero. }
    split; [exact Hperm|].
    rewrite (Permutation_map _ Hperm).
    rewrite (map_nth_seq_all "" (knowledge_base w)). reflexivity.
  - rewrite cluster_uncertain_queries_unfold. cbv zeta.
    destruct (Z.ltb_spec (Z.of_nat (length (uncertain_queries w))) n_clusters); [lia|].
    destruct (self_sentence_model_encode E (history w) (map fst (uncertain_queries w)))
      as [embeddings|e]; [|reflexivity].
    specialize (Hkm (history (record (SelfEncodeCall (map fst (uncertain_queries w))) w))
                    n_clusters embeddings).
    destruct (KMeans_fit E
                (history (record (SelfEncodeCall (map fst (uncertain_queries w))) w))
                n_clusters embeddings); simpl in *.
    + assert (false = true) by (apply Hkm; lia). discriminate.
    + reflexivity.
Qed.

Lemma kmeans_rejects_below_one_up : kmeans_rejects_below_one Sample.E_up.
Proof.
  intros h n X Hn. simpl. unfold Sample.kmeans.
  apply Z.ltb_lt in Hn. rewrite Hn. reflexivity.
Qed.

Lemma nonpositive_arguments_witness :
  fst (retrieve_relevant_context Sample.E_up "What are your hours?" 0 Sample.w0)
    = Return [ "We offer refunds within 30 days of purchase with a valid receipt.";
               "To reset your password, click on the 'Forgot Password' link on the login page.";
               "Our product warranty covers manufacturing defects for one year from the date of purchase.";
               "Our store hours are 9 AM to 5 PM, Monday to Friday.";
               "For technical support, please email support@example.com or call 0800-123-4567." ] /\
  is_raise (fst (cluster_uncertain_queries Sample.E_up 0 Sample.w0)) = true.
Proof.
  destruct (nonpositive_arguments Sample.E_up "What are your hours?" 0 0 Sample.w0)
    as (_ & Hrank & Hcluster).
  - lia.
  - lia.
  - exact kmeans_rejects_below_one_up.
  - split; [|exact Hcluster].
    refine (proj1 (Hrank
              (map (Sample.dot (Sample.embed "What are your hours?"))
                   (knowledge_embeddings Sample.w0))
              [2%nat; 1%nat; 3%nat; 0%nat; 4%nat]
              (snd (rank_entries Sample.E_up "What are your hours?" 0 Sample.w0))
              _ _)).
    + vm_compute. reflexivity.
    + reflexivity.
Defined.

(** C8, as the spec has it, fails: with [top_k = 0] the retrieval completes
    and returns all five entries. *)
Lemma nonpositive_fails_fast_fails :
  ~ nonpositive_fails_fast Sample.E_up "What are your hours?" 0 0 Sample.w0.
Proof.
  intros [Hk _]. specialize (Hk ltac:(lia)). vm_compute in Hk. discriminate Hk.
Qed.

(** ** Representatives of the clusters *)

Lemma where_eq_from_spec (labels : list nat) (i pos j : nat) :
  In j (where_eq_from pos labels i) <->
  (pos <= j)%nat /\ nth_error labels (j - pos) = Some i.
Proof.
  revert pos. induction labels as [|l labels IH]; intro pos; simpl.
  - split; [intros []|]. intros [_ H]. destruct (j - pos)%nat; discriminate.
  - destruct (Nat.eqb_spec l i) as [->|Hne]; simpl; rewrite IH; split.
    + intros [<-|[Hle Hn]].
      * split; [lia|]. rewrite Nat.sub_diag. reflexivity.
      * split; [lia|]. replace (j - pos)%nat with (S (j - S pos)) by lia. exact Hn.
    + intros [Hle Hn]. destruct (Nat.eq_dec pos j) as [->|Hpj]; [left; reflexivity|].
      right. split; [lia|].
      replace (j - pos)%nat with (S (j - S pos)) in Hn by lia. exact Hn.
    + intros [Hle Hn]. split; [lia|].
      replace (j - pos)%nat with (S (j - S pos)) by lia. exact Hn.
    + intros [Hle Hn]. destruct (Nat.eq_dec pos j) as [->|Hpj].
      * rewrite Nat.sub_diag in Hn. simpl in Hn. congruence.
      * split; [lia|].
        replace (j - pos)%nat with (S (j - S pos)) in Hn by lia. exact Hn.
Qed.

Lemma where_eq_spec (labels : list nat) (i j : nat) :
  In j (where_eq labels i) <-> nth_error labels j = Some i.
Proof.
  unfold where_eq. rewrite where_eq_from_spec, Nat.sub_0_r.
  split; [tauto|]. intro H. split; [lia|exact H].
Qed.

Lemma argmin_from_spec (l : list Q) (pos best : nat) (vbest : Q) :
  exists v,
    ((argmin_from pos best vbest l = best /\ v = vbest) \/
     ((pos <= argmin_from pos best vbest l)%nat /\
      nth_error l (argmin_from pos best vbest l - pos) = Some v)) /\
    (v <= vbest)%Q /\ Forall (Qle v) l.
Proof.
  revert pos best vbest. induction l as [|x l IH]; intros pos best vbest; simpl.
  - exists vbest. split; [left; split; reflexivity|]. split; [apply Qle_refl|constructor].
  - destruct (Qltb x vbest) eqn:Hlt.
    + apply Qltb_true in Hlt.
      destruct (IH (S pos) pos x) as (v & Hwhere & Hle & Hall).
      exists v. split; [|split].
      * right. destruct Hwhere as [[-> ->]|[Hpos Hn]].
        -- split; [lia|]. rewrite Nat.sub_diag. reflexivity.
        -- split; [lia|].
           replace (argmin_from (S pos) pos x l - pos)%nat
             with (S (argmin_from (S pos) pos x l - S pos)) by lia.
           exact Hn.
      * apply Qlt_le_weak. eapply Qle_lt_trans; [exact Hle|exact Hlt].
      * constructor; assumption.
    + apply Qltb_false in Hlt.
      destruct (IH (S pos) best vbest) as (v & Hwhere & Hle & Hall).
      exists v. split; [|split].
      * destruct Hwhere as [Hbest|[Hpos Hn]]; [left; exact Hbest|].
        right. split; [lia|].
        replace (argmin_from (S pos) best vbest l - pos)%nat
          with (S (argmin_from (S pos) best vbest l - S pos)) by lia.
        exact Hn.
      * exact Hle.
      * constructor; [|exact Hall]. eapply Qle_trans; [exact Hle|exact Hlt].
Qed.

(** [np.argmin] on a non-empty array gives a position that holds a least
    value. *)
Lemma argmin_spec (l : list Q) :
  l <> [] ->
  exists a v, argmin l = Return a /\ nth_error l a = Some v /\ Forall (Qle v) l.
Proof.
  destruct l as [|x l]; [congruence|]. intros _. simpl.
  destruct (argmin_from_spec l 1 0 x) as (v & Hwhere & Hle & Hall).
  exists (argmin_from 1 0 x l), v. split; [reflexivity|]. split.
  - destruct Hwhere as [[-> ->]|[Hpos Hn]]; [reflexivity|].
    destruct (argmin_from 1 0 x l) as [|a]; [lia|].
    simpl in *. rewrite Nat.sub_0_r in Hn. exact Hn.
  - constructor; assumption.
Qed.

Lemma representative_spec E (uq : list (string * string)) (embeddings : list vec)
    (fit : kmeans_fit) (i : nat) (center : vec) :
  length embeddings = length (labels_ fit) ->
  length uq = length (labels_ fit) ->
  nth_error (cluster_centers_ fit) i = Some center ->
  (exists j, nth_error (labels_ fit) j = Some i) ->
  exists r case,
    representative E uq embeddings fit i = Return case /\
    nth_error uq r = Some case /\
    nth_error (labels_ fit) r = Some i /\
    forall j, nth_error (labels_ fit) j = Some i ->
      (distance E embeddings center r <= distance E embeddings center j)%Q.
Proof.
  intros Hemb Huq Hcenter [j0 Hj0].
  unfold representative, getitem at 1. rewrite Hcenter. simpl.
  assert (Hrange : Forall (fun j => (j < length embeddings)%nat) (where_eq (labels_ fit) i)).
  { rewrite Forall_forall. intros j Hj. apply where_eq_spec in Hj.
    rewrite Hemb. apply nth_error_Some. congruence. }
  rewrite (@traverse_getitem_in_range vec [] embeddings _ Hrange). simpl.
  rewrite map_map. fold (distance E embeddings center).
  destruct (argmin_spec (map (distance E embeddings center) (where_eq (labels_ fit) i)))
    as (a & v & Harg & Hv & Hmin).
  { apply where_eq_spec in Hj0. intro Hnil. apply map_eq_nil in Hnil.
    rewrite Hnil in Hj0. exact Hj0. }
  rewrite Harg. simpl.
  rewrite nth_error_map in Hv.
  destruct (nth_error (where_eq (labels_ fit) i) a) as [r|] eqn:Hr; [|discriminate].
  simpl in Hv. injection Hv as <-.
  unfold getitem at 1. rewrite Hr. simpl.
  assert (Hlabel : nth_error (labels_ fit) r = Some i).
  { apply where_eq_spec. eapply nth_error_In. exact Hr. }
  assert (Hlt : (r < length uq)%nat).
  { rewrite Huq. apply nth_error_Some. congruence. }
  unfold getitem. destruct (nth_error uq r) as [case|] eqn:Hcase.
  - exists r, case. repeat split; try assumption.
    intros j Hj. rewrite Forall_forall in Hmin. apply Hmin.
    apply in_map. apply where_eq_spec. exact Hj.
  - apply nth_error_None in Hcase. lia.
Qed.

(** C4, as the code has it. With a positive [n_clusters] and at least that
    many queued cases, when the provider returns one embedding per case and
    the clustering routine returns a fit that labels every case, holds
    [n_clusters] centroids and leaves no cluster empty, the curation pass
    returns exactly [n_clusters] cases; the case at place [i] is a queued
    case of cluster [i] whose embedding is at the least distance from the
    centroid of cluster [i] among the members of that cluster. *)
Theorem representatives_one_per_cluster E (n_clusters : Z) (w : world)
    (embeddings : list vec) (fit : kmeans_fit) :
  0 < n_clusters ->
  n_clusters <= Z.of_nat (length (uncertain_queries w)) ->
  self_sentence_model_encode E (history w) (map fst (uncertain_queries w))
    = Return embeddings ->
  length embeddings = length (uncertain_queries w) ->
  KMeans_fit E (history w ++ [SelfEncodeCall (map fst (uncertain_queries w))])
    n_clusters embeddings = Return fit ->
  fit_covers fit n_clusters (length (uncertain_queries w)) ->
  exists reps,
    fst (cluster_uncertain_queries E n_clusters w) = Return reps /\
    Z.of_nat (length reps) = n_clusters /\
    forall i, (i < Z.to_nat n_clusters)%nat ->
      exists r case center,
        nth_error reps i = Some case /\
        nth_error (uncertain_queries w) r = Some case /\
        nth_error (labels_ fit) r = Some i /\
        nth_error (cluster_centers_ fit) i = Some center /\
        forall j, nth_error (labels_ fit) j = Some i ->
          (distance E embeddings center r <= distance E embeddings center j)%Q.
Proof.
  intros Hpos Hge Henc Hlen Hfit (Hlabels & Hcenters & Hcover).
  rewrite cluster_uncertain_queries_unfold. cbv zeta.
  destruct (Z.ltb_spec (Z.of_nat (length (uncertain_queries w))) n_clusters); [lia|].
  rewrite Henc. simpl history. rewrite Hfit. simpl fst.
  assert (Hcenter : forall i, (i < Z.to_nat n_clusters)%nat ->
                      exists center, nth_error (cluster_centers_ fit) i = Some center).
  { intros i Hi. destruct (nth_error (cluster_centers_ fit) i) as [c|] eqn:Hc; [eauto|].
    apply nth_error_None in Hc. lia. }
  assert (Hrep : forall i, (i < Z.to_nat n_clusters)%nat ->
            exists r case center,
              representative E (uncertain_queries w) embeddings fit i = Return case /\
              nth_error (uncertain_queries w) r = Some case /\
              nth_error (labels_ fit) r = Some i /\
              nth_error (cluster_centers_ fit) i = Some center /\
              forall j, nth_error (labels_ fit) j = Some i ->
                (distance E embeddings center r <= distance E embeddings center j)%Q).
  { intros i Hi. destruct (Hcenter i Hi) as [center Hc].
    destruct (representative_spec E (uncertain_queries w) embeddings fit i center)
      as (r & case & Hret & Hcase & Hlabel & Hmin); try congruence.
    - apply Hcover, Hi.
    - exists r, case, center. repeat split; assumption. }
  destruct (traverse_total (representative E (uncertain_queries w) embeddings fit)
              (range n_clusters)) as [reps Hreps].
  { rewrite Forall_forall. intros i Hi. apply in_seq in Hi.
    destruct (Hrep i) as (r & case & center & Hret & _); [lia|].
    rewrite Hret. reflexivity. }
  exists reps. split; [exact Hreps|]. split.
  - rewrite (traverse_length _ _ _ Hreps). unfold range. rewrite length_seq. lia.
  - intros i Hi.
    destruct (Hrep i Hi) as (r & case & center & Hret & Hcase & Hlabel & Hc & Hmin).
    destruct (traverse_nth_error _ _ _ i i Hreps) as (y & Hy & Hfy).
    { unfold range. rewrite nth_error_seq.
      destruct (Nat.ltb_spec i (Z.to_nat n_clusters)); [reflexivity|lia]. }
    exists r, case, center. repeat split; try assumption. congruence.
Qed.

Lemma representatives_one_per_cluster_witness :
  match fst (cluster_uncertain_queries Sample.E_up 2 (Sample.with_queue Sample.three_cases)) with
  | Return reps => Z.of_nat (length reps) = 2
  | Raise _ => False
  end.
Proof.
  destruct (representatives_one_per_cluster Sample.E_up 2
              (Sample.with_queue Sample.three_cases)
              (map Sample.embed ["a"; "bb"; "ccc"])
              (mkFit [0%nat; 1%nat; 1%nat] (map Sample.embed ["a"; "bb"])))
    as (reps & Hret & Hlen & _).
  - lia.
  - simpl. lia.
  - reflexivity.
  - reflexivity.
  - vm_compute. reflexivity.
  - split; [reflexivity|]. split; [reflexivity|].
    intros i Hi. destruct i as [|[|i]].
    + exists 0%nat. reflexivity.
    + exists 1%nat. reflexivity.
    + simpl in Hi. lia.
  - rewrite Hret. exact Hlen.
Defined.

(** The condition on the fit cannot be dropped: whenever the fit leaves a
    cluster below [n_clusters] without members, the pass raises. *)
Lemma empty_cluster_raises E (n_clusters : Z) (w : world)
    (embeddings : list vec) (fit : kmeans_fit) (i : nat) :
  n_clusters <= Z.of_nat (length (uncertain_queries w)) ->
  self_sentence_model_encode E (history w) (map fst (uncertain_queries w))
    = Return embeddings ->
  KMeans_fit E (history w ++ [SelfEncodeCall (map fst (uncertain_queries w))])
    n_clusters embeddings = Return fit ->
  (i < Z.to_nat n_clusters)%nat ->
  (forall j, nth_error (labels_ fit) j <> Some i) ->
  is_raise (fst (cluster_uncertain_queries E n_clusters w)) = true.
Proof.
  intros Hge Henc Hfit Hi Hnone.
  rewrite cluster_uncertain_queries_unfold. cbv zeta.
  destruct (Z.ltb_spec (Z.of_nat (length (uncertain_queries w))) n_clusters); [lia|].
  rewrite Henc. simpl history. rewrite Hfit. simpl fst.
  apply traverse_raises with (x := i).
  - unfold range. apply in_seq. lia.
  - unfold representative.
    assert (Hnil : where_eq (labels_ fit) i = []).
    { destruct (where_eq (labels_ fit) i) as [|j l] eqn:Hw; [reflexivity|].
      exfalso. apply (Hnone j). apply where_eq_spec. rewrite Hw. left. reflexivity. }
    rewrite Hnil. destruct (getitem (cluster_centers_ fit) i); reflexivity.
Qed.

(** C4, as the spec has it, fails: five identical queued queries get five
    identical embeddings, a centroid-based clustering puts them all in one
    cluster, and [np.argmin] raises on the first empty cluster. *)
Lemma returns_n_representatives_fails :
  ~ returns_n_representatives Sample.E_up 5 (Sample.with_queue Sample.same_five).
Proof.
  intro H. destruct H as (reps & Hret & _).
  - lia.
  - simpl. lia.
  - vm_compute in Hret. discriminate Hret.
Qed.

(** ** The request pipeline as a whole *)

Lemma generate_response_unfold E q w :
  generate_response E q w =
  match generate_body E q (datetime_now E (history w)) (record ClockCall w) with
  | (Return s, w1) => (Return s, w1)
  | (Raise e, w1) =>
      (Return (String.append "An error occurred: " (str_exn e)),
       record (LogError (String.append "Error in generate_response: " (str_exn e))) w1)
  end.
Proof.
  unfold generate_response, bind at 1. unfold now at 1, call at 1.
  unfold try_except.
  destruct (generate_body E q (datetime_now E (history w)) (record ClockCall w))
    as [[s|e] w1]; reflexivity.
Qed.

Lemma generate_body_unfold E q t w :
  generate_body E q t w =
  match answer_phase E q w with
  | (Raise e, w1) => (Raise e, w1)
  | (Return answer, w1) =>
      match analytics_phase E q t (snd (record_uncertainty q (fst answer) w1)) with
      | (Return _, w3) => (Return (snd answer), w3)
      | (Raise e, w3) => (Raise e, w3)
      end
  end.
Proof.
  unfold generate_body, bind at 1.
  destruct (answer_phase E q w) as [[answer|e] w1]; [|reflexivity].
  unfold bind at 1.
  destruct (record_uncertainty_queue q (fst answer) w1) as [Hret _].
  destruct (record_uncertainty q (fst answer) w1) as [o w2]. simpl in Hret. subst o.
  simpl snd. unfold bind at 1.
  destruct (analytics_phase E q t w2) as [[u|e] w3]; reflexivity.
Qed.

Lemma answer_phase_unfold E q w :
  answer_phase E q w =
  let r := retrieve_relevant_context E q 2 w in
  let user_content :=
    String.append "Context: "
      (String.append (String.concat " " (match fst r with Return c => c | Raise _ => [] end))
         (String.append newline
            (String.append newline (String.append "Question: " q)))) in
  let w1 := record (ChatCall user_content) (snd r) in
  match chat_completions_create E (history (snd r)) user_content with
  | Raise e => (Raise e, w1)
  | Return content =>
      match analyze_sentiment_and_personalize E q (strip content) w1 with
      | (Return personalized, w2) => (Return (strip content, fst personalized), w2)
      | (Raise e, w2) => (Raise e, w2)
      end
  end.
Proof.
  unfold answer_phase, bind at 1. cbv zeta.
  destruct (retrieve_always_returns E q 2 w) as [ctx Hctx].
  destruct (retrieve_relevant_context E q 2 w) as [o w0]. simpl in Hctx. subst o.
  simpl fst. simpl snd. unfold bind at 1, call at 1.
  destruct (chat_completions_create E (history w0) _) as [content|e]; [|reflexivity].
  unfold bind at 1.
  destruct (analyze_sentiment_and_personalize E q (strip content) _) as [[p|e] w2];
    reflexivity.
Qed.

(** X1. [generate_response] never raises to its caller: it always returns a
    string. Whenever the chat completion raises, on whatever it is asked, the
    string returned is "An error occurred: " followed by the text of that
    exception, and neither the uncertainty queue nor the analytics lists
    change. *)
Theorem generate_response_reports_errors E (query : string) (w : world) :
  (exists s, fst (generate_response E query w) = Return s) /\
  (forall e, (forall h c, chat_completions_create E h c = Raise e) ->
     fst (generate_response E query w)
       = Return (String.append "An error occurred: " (str_exn e)) /\
     uncertain_queries (snd (generate_response E query w)) = uncertain_queries w /\
     analytics_system (snd (generate_response E query w)) = analytics_system w).
Proof.
  split.
  - rewrite generate_response_unfold.
    destruct (generate_body E query _ _) as [[s|e] w1]; simpl; eauto.
  - intros e Hchat.
    rewrite generate_response_unfold, generate_body_unfold, answer_phase_unfold.
    cbv zeta. rewrite Hchat. simpl.
    pose proof (retrieve_preserves_queue E query 2 (record ClockCall w)) as Hq.
    assert (Ha : preserves analytics_system (retrieve_relevant_context E query 2)).
    { unfold retrieve_relevant_context, retrieve_body, rank_entries, encode.
      repeat first
        [ apply preserves_bind; [ | intro ]
        | apply preserves_try_except; [ | intro ]
        | apply preserves_call; intros ev w'; reflexivity
        | apply preserves_logging_error; intros ev w'; reflexivity
        | apply preserves_gets | apply preserves_lift | apply preserves_ret ]. }
    specialize (Ha (record ClockCall w)).
    repeat split; [exact Hq | exact Ha].
Qed.

Lemma generate_response_reports_errors_witness :
  fst (generate_response Demo.E_chat_down "hi" Sample.w0)
  = Return "An error occurred: rate limit exceeded".
Proof.
  apply (proj2 (generate_response_reports_errors Demo.E_chat_down "hi" Sample.w0)
               (RuntimeError "rate limit exceeded")).
  intros h c. reflexivity.
Defined.

(** ** Personalisation *)

Lemma personalize_unfold E q r w :
  analyze_sentiment_and_personalize E q r w =
  let w1 := record (SentimentCall q) w in
  match sentiment_analyzer E (history w) q with
  | Raise e => (Raise e, w1)
  | Return results =>
      match getitem results 0 with
      | Raise e => (Raise e, w1)
      | Return res =>
          let sentiment :=
            if (String.eqb (label res) "POSITIVE" && Qltb (6 # 10) (score res))%bool
            then "POSITIVE"
            else if (String.eqb (label res) "NEGATIVE" && Qltb (6 # 10) (score res))%bool
            then "NEGATIVE"
            else "NEUTRAL" in
          if (String.eqb sentiment "POSITIVE" || String.eqb sentiment "NEGATIVE")%bool then
            let templates := response_templates sentiment in
            let w2 := record (ChoiceCall (length templates)) w1 in
            match getitem templates (random_choice E (history w1) (length templates)) with
            | Return template => (Return (format template r, sentiment), w2)
            | Raise e => (Raise e, w2)
            end
          else (Return (r, sentiment), w1)
      end
  end.
Proof.
  unfold analyze_sentiment_and_personalize, bind at 1. unfold analyze, call at 1.
  cbv zeta.
  destruct (sentiment_analyzer E (history w) q) as [results|e]; [|reflexivity].
  unfold bind at 1, lift at 1.
  destruct (getitem results 0) as [res|e]; [|reflexivity].
  destruct (String.eqb (label res) "POSITIVE" && Qltb (6 # 10) (score res))%bool;
    [|destruct (String.eqb (label res) "NEGATIVE" && Qltb (6 # 10) (score res))%bool].
  - change (String.eqb "POSITIVE" "POSITIVE" || String.eqb "POSITIVE" "NEGATIVE")%bool
      with true. cbv iota.
    unfold bind, call, lift, ret.
    destruct (getitem (response_templates "POSITIVE") _); reflexivity.
  - change (String.eqb "NEGATIVE" "POSITIVE" || String.eqb "NEGATIVE" "NEGATIVE")%bool
      with true. cbv iota.
    unfold bind, call, lift, ret.
    destruct (getitem (response_templates "NEGATIVE") _); reflexivity.
  - change (String.eqb "NEUTRAL" "POSITIVE" || String.eqb "NEUTRAL" "NEGATIVE")%bool
      with false. reflexivity.
Qed.

(** X2. When the personalisation returns, its sentiment is "POSITIVE",
    "NEGATIVE" or "NEUTRAL". With "NEUTRAL" the answer is returned as it
    came; otherwise it is the answer put inside one of the templates of that
    sentiment, so the answer's text is never altered, only wrapped. *)
Theorem personalize_wraps_answer E (query response : string) (w : world)
    (personalized sentiment : string) (w' : world) :
  analyze_sentiment_and_personalize E query response w
    = (Return (personalized, sentiment), w') ->
  (sentiment = "NEUTRAL" /\ personalized = response) \/
  ((sentiment = "POSITIVE" \/ sentiment = "NEGATIVE") /\
   exists template, In template (response_templates sentiment) /\
                    wraps personalized response template).
Proof.
  rewrite personalize_unfold. cbv zeta.
  destruct (sentiment_analyzer E (history w) query) as [results|e]; [|discriminate].
  destruct (getitem results 0) as [res|e]; [|discriminate].
  destruct (String.eqb (label res) "POSITIVE" && Qltb (6 # 10) (score res))%bool.
  - change (String.eqb "POSITIVE" "POSITIVE" || String.eqb "POSITIVE" "NEGATIVE")%bool
      with true. cbv iota.
    destruct (getitem (response_templates "POSITIVE") _) as [template|e] eqn:Hget;
      [|discriminate].
    intro H. injection H as <- <- _. right. split; [left; reflexivity|].
    exists template. split; [|reflexivity].
    unfold getitem in Hget.
    destruct (nth_error (response_templates "POSITIVE") _) eqn:Hn; [|discriminate].
    injection Hget as ->. eapply nth_error_In. exact Hn.
  - destruct (String.eqb (label res) "NEGATIVE" && Qltb (6 # 10) (score res))%bool.
    + change (String.eqb "NEGATIVE" "POSITIVE" || String.eqb "NEGATIVE" "NEGATIVE")%bool
        with true. cbv iota.
      destruct (getitem (response_templates "NEGATIVE") _) as [template|e] eqn:Hget;
        [|discriminate].
      intro H. injection H as <- <- _. right. split; [right; reflexivity|].
      exists template. split; [|reflexivity].
      unfold getitem in Hget.
      destruct (nth_error (response_templates "NEGATIVE") _) eqn:Hn; [|discriminate].
      injection Hget as ->. eapply nth_error_In. exact Hn.
    + change (String.eqb "NEUTRAL" "POSITIVE" || String.eqb "NEUTRAL" "NEGATIVE")%bool
        with false. cbv iota.
      intro H. injection H as <- <- _. left. split; reflexivity.
Qed.

Lemma personalize_wraps_answer_witness :
  wraps "I understand your frustration. Please check our website. We'll do our best to help you."
        "Please check our website."
        ("I understand your frustration. ", " We'll do our best to help you.").
Proof.
  destruct (personalize_wraps_answer Sample.E_up "hi" "Please check our website." Sample.w0
              "I understand your frustration. Please check our website. We'll do our best to help you."
              "NEGATIVE"
              (snd (analyze_sentiment_and_personalize Sample.E_up "hi"
                      "Please check our website." Sample.w0)) eq_refl)
    as [[Hs _]|[_ (template & Hin & Hw)]].
  - discriminate Hs.
  - reflexivity.
Defined.

Lemma personalize_neutral_aux E (query response : string) (w : world)
    (res : sentiment_result) (rest : list sentiment_result) :
  sentiment_analyzer E (history w) query = Return (res :: rest) ->
  (score res <= 6 # 10)%Q \/
  (label res <> "POSITIVE" /\ label res <> "NEGATIVE") ->
  analyze_sentiment_and_personalize E query response w
    = (Return (response, "NEUTRAL"), record (SentimentCall query) w).
Proof.
  intros Hres Hlow. rewrite personalize_unfold. cbv zeta. rewrite Hres.
  change (getitem (res :: rest) 0) with (Return res). cbv iota.
  assert (Hpos : (String.eqb (label res) "POSITIVE" && Qltb (6 # 10) (score res))%bool = false).
  { destruct Hlow as [Hle|[Hp _]].
    - apply andb_false_iff. right. unfold Qltb. apply negb_false_iff.
      apply Qle_bool_iff. exact Hle.
    - apply andb_false_iff. left. apply String.eqb_neq. exact Hp. }
  assert (Hneg : (String.eqb (label res) "NEGATIVE" && Qltb (6 # 10) (score res))%bool = false).
  { destruct Hlow as [Hle|[_ Hn]].
    - apply andb_false_iff. right. unfold Qltb. apply negb_false_iff.
      apply Qle_bool_iff. exact Hle.
    - apply andb_false_iff. left. apply String.eqb_neq. exact Hn. }
  rewrite Hpos, Hneg. reflexivity.
Qed.

(** X3. The threshold of the personalisation: when the analyzer's first
    result has a score of at most 0.6, or a label that is neither "POSITIVE"
    nor "NEGATIVE", the answer is returned unchanged with the sentiment
    "NEUTRAL", and [random.choice] is not called. *)
Theorem personalize_neutral_below_threshold E (query response : string) (w : world)
    (res : sentiment_result) (rest : list sentiment_result) :
  sentiment_analyzer E (history w) query = Return (res :: rest) ->
  (score res <= 6 # 10)%Q \/
  (label res <> "POSITIVE" /\ label res <> "NEGATIVE") ->
  analyze_sentiment_and_personalize E query response w
    = (Return (response, "NEUTRAL"), record (SentimentCall query) w).
Proof. apply personalize_neutral_aux. Qed.

Lemma personalize_neutral_below_threshold_witness :
  fst (analyze_sentiment_and_personalize Demo.E_unsure "hi" "Please check our website."
         Sample.w0)
  = Return ("Please check our website.", "NEUTRAL").
Proof.
  rewrite (personalize_neutral_below_threshold Demo.E_unsure "hi"
             "Please check our website." Sample.w0
             (mkSentiment "NEGATIVE" (55 # 100)) []).
  - reflexivity.
  - reflexivity.
  - left. vm_compute. discriminate.
Defined.

(** ** What each operation leaves alone *)

Ltac frame_any :=
  repeat first
    [ apply preserves_ret
    | apply preserves_lift
    | apply preserves_gets
    | apply preserves_call; intros ? ?; reflexivity
    | apply preserves_logging_error; intros ? ?; reflexivity
    | apply preserves_modify; intros ?; reflexivity
    | apply preserves_bind; [ | intro ]
    | apply preserves_try_except; [ | intro ]
    | match goal with |- preserves _ (if ?b then _ else _) => destruct b end
    | match goal with |- preserves _ (let _ := _ in _) => cbv zeta end ].

Lemma retrieve_preserves_analytics E q k :
  preserves analytics_system (retrieve_relevant_context E q k).
Proof. frame_any. Qed.

Lemma retrieve_preserves_knowledge_base E q k :
  preserves knowledge_base (retrieve_relevant_context E q k).
Proof. frame_any. Qed.

Lemma retrieve_preserves_embeddings E q k :
  preserves knowledge_embeddings (retrieve_relevant_context E q k).
Proof. frame_any. Qed.

Lemma generate_response_preserves_knowledge_base E q :
  preserves knowledge_base (generate_response E q).
Proof.
  unfold generate_response, generate_body, answer_phase, record_uncertainty,
    add_uncertain_query, analytics_phase, log_interaction. frame_any.
Qed.

Lemma generate_response_preserves_embeddings E q :
  preserves knowledge_embeddings (generate_response E q).
Proof.
  unfold generate_response, generate_body, answer_phase, record_uncertainty,
    add_uncertain_query, analytics_phase, log_interaction. frame_any.
Qed.

Lemma cluster_preserves_knowledge_base E n :
  preserves knowledge_base (cluster_uncertain_queries E n).
Proof. unfold cluster_uncertain_queries. frame_any. Qed.

Lemma cluster_preserves_embeddings E n :
  preserves knowledge_embeddings (cluster_uncertain_queries E n).
Proof. unfold cluster_uncertain_queries. frame_any. Qed.

Lemma cluster_preserves_analytics E n :
  preserves analytics_system (cluster_uncertain_queries E n).
Proof. unfold cluster_uncertain_queries. frame_any. Qed.

Lemma update_preserves_queue E new_entries :
  preserves uncertain_queries (update_knowledge_base E new_entries).
Proof. unfold update_knowledge_base. frame_any. Qed.

Lemma update_preserves_analytics E new_entries :
  preserves analytics_system (update_knowledge_base E new_entries).
Proof. unfold update_knowledge_base. frame_any. Qed.

Lemma update_knowledge_base_entries E new_entries w :
  knowledge_base (snd (update_knowledge_base E new_entries w))
    = knowledge_base w ++ new_entries.
Proof.
  rewrite update_knowledge_base_unfold. cbv zeta.
  destruct (sentence_model_encode E (history w) (knowledge_base w ++ new_entries));
    reflexivity.
Qed.

Lemma run_ops_app E ops1 ops2 w :
  run_ops E (ops1 ++ ops2) w = run_ops E ops2 (run_ops E ops1 w).
Proof. unfold run_ops. apply fold_left_app. Qed.

(** X4. The knowledge base only grows at its end: after any run of queries,
    curation passes and appends, whichever of them returned or raised, it is
    the knowledge base the run started from followed by the appended texts
    in the order of the appends. So an entry keeps its position for good. *)
Theorem knowledge_base_only_grows E (ops : list op) (w : world) :
  knowledge_base (run_ops E ops w) = knowledge_base w ++ appended ops /\
  forall i entry, nth_error (knowledge_base w) i = Some entry ->
                  nth_error (knowledge_base (run_ops E ops w)) i = Some entry.
Proof.
  assert (H : knowledge_base (run_ops E ops w) = knowledge_base w ++ appended ops).
  { revert w. induction ops as [|o ops IH]; intro w.
    - simpl. rewrite app_nil_r. reflexivity.
    - change (run_ops E (o :: ops) w) with (run_ops E ops (run_op E o w)).
      rewrite IH. destruct o as [q|n|b]; simpl.
      + rewrite generate_response_preserves_knowledge_base. reflexivity.
      + rewrite cluster_preserves_knowledge_base. reflexivity.
      + rewrite update_knowledge_base_entries, <- app_assoc. reflexivity. }
  split; [exact H|].
  intros i entry Hi. rewrite H. rewrite nth_error_app1; [exact Hi|].
  apply nth_error_Some. congruence.
Qed.

Lemma index_untouched_aux E (ops : list op) (w : world) :
  Forall (fun o => match o with Append _ => False | _ => True end) ops ->
  knowledge_base (run_ops E ops w) = knowledge_base w /\
  knowledge_embeddings (run_ops E ops w) = knowledge_embeddings w /\
  (paired w -> paired (run_ops E ops w)).
Proof.
  intros Hops.
  assert (H : knowledge_base (run_ops E ops w) = knowledge_base w /\
              knowledge_embeddings (run_ops E ops w) = knowledge_embeddings w).
  { revert w. induction Hops as [|o ops Ho Hops IH]; intro w.
    - split; reflexivity.
    - change (run_ops E (o :: ops) w) with (run_ops E ops (run_op E o w)).
      destruct (IH (run_op E o w)) as [Hkb Hes]. rewrite Hkb, Hes.
      destruct o as [q|n|b]; simpl.
      + split; [apply generate_response_preserves_knowledge_base
               |apply generate_response_preserves_embeddings].
      + split; [apply cluster_preserves_knowledge_base
               |apply cluster_preserves_embeddings].
      + contradiction. }
  destruct H as [Hkb Hes]. repeat split; try assumption.
  unfold paired. rewrite Hkb, Hes. trivial.
Qed.

(** X5. Only an append touches the embeddings: a run of queries and curation
    passes alone leaves the knowledge base and its embeddings exactly as
    they were, so an index that was paired stays paired. *)
Theorem index_untouched_without_append E (ops : list op) (w : world) :
  Forall (fun o => match o with Append _ => False | _ => True end) ops ->
  knowledge_base (run_ops E ops w) = knowledge_base w /\
  knowledge_embeddings (run_ops E ops w) = knowledge_embeddings w /\
  (paired w -> paired (run_ops E ops w)).
Proof. apply index_untouched_aux. Qed.

Lemma index_untouched_without_append_witness :
  knowledge_embeddings
    (run_ops Sample.E_up [Ask "hi"; Curate 5; Ask "What are your hours?"] Sample.w0)
  = knowledge_embeddings Sample.w0.
Proof.
  apply (index_untouched_without_append Sample.E_up
           [Ask "hi"; Curate 5; Ask "What are your hours?"] Sample.w0).
  repeat constructor.
Defined.

(** ** Stripping *)

Lemma lstrip_head (s : string) :
  lstrip s = EmptyString \/
  exists c t, lstrip s = String c t /\ is_space c = false.
Proof.
  induction s as [|c s IH]; simpl.
  - left. reflexivity.
  - destruct (is_space c) eqn:Hc; [exact IH|].
    right. exists c, s. split; [reflexivity|exact Hc].
Qed.

Lemma rstrip_idempotent (s : string) : rstrip (rstrip s) = rstrip s.
Proof.
  induction s as [|c s IH]; simpl; [reflexivity|].
  destruct (rstrip s) as [|d t] eqn:Hr.
  - destruct (is_space c) eqn:Hc; simpl; [reflexivity|]. rewrite Hc. reflexivity.
  - simpl in IH |- *. rewrite IH. reflexivity.
Qed.

Lemma rstrip_keeps_head (c : ascii) (s : string) :
  is_space c = false -> exists t, rstrip (String c s) = String c t.
Proof.
  intro Hc. simpl. destruct (rstrip s) as [|d t].
  - rewrite Hc. eauto.
  - eauto.
Qed.

Lemma strip_idempotent (s : string) : strip (strip s) = strip s.
Proof.
  unfold strip. destruct (lstrip_head s) as [He|(c & t & He & Hc)]; rewrite He.
  - reflexivity.
  - destruct (rstrip_keeps_head c t Hc) as [u Hu]. rewrite Hu.
    simpl lstrip. rewrite Hc. rewrite <- Hu. apply rstrip_idempotent.
Qed.

(** ** What a request does to the queue and to the analytics *)

Lemma answer_phase_raw_stripped E q w raw pers w1 :
  answer_phase E q w = (Return (raw, pers), w1) -> exists content, raw = strip content.
Proof.
  rewrite answer_phase_unfold. cbv zeta.
  destruct (chat_completions_create E _ _) as [content|e]; [|discriminate].
  destruct (analyze_sentiment_and_personalize E q (strip content) _) as [[p|e] w2];
    [|discriminate].
  intro H. injection H as <- _ _. eauto.
Qed.

Lemma generate_response_queue_cases E q w :
  uncertain_queries (snd (generate_response E q w)) = uncertain_queries w \/
  exists answer,
    uncertain_queries (snd (generate_response E q w)) = uncertain_queries w ++ [(q, answer)] /\
    short_stripped (q, answer).
Proof.
  destruct (answer_phase E q (snd (now E w))) as [[[raw pers]|e] w1] eqn:Hans.
  - rewrite (generate_response_queue E q w raw pers w1 Hans).
    destruct (evaluate_certainty q raw) eqn:Hcert; [left; reflexivity|].
    right. exists raw. split; [reflexivity|]. split.
    + apply evaluate_certainty_false_iff with (query := q). exact Hcert.
    + destruct (answer_phase_raw_stripped E q _ raw pers w1 Hans) as [content ->].
      apply strip_idempotent.
  - left. rewrite generate_response_unfold, generate_body_unfold.
    change (record ClockCall w) with (snd (now E w)). rewrite Hans. simpl.
    pose proof (answer_phase_preserves_queue E q (snd (now E w))) as H.
    rewrite Hans in H. exact H.
Qed.

(** X6. The uncertainty queue only grows, and only by requests: after any run
    the queue is the one the run started from followed by at most one case
    per query asked; every case added pairs a query of the run with an
    answer of at most 50 characters that has no whitespace at its ends.
    Curation passes and appends add and remove nothing. *)
Theorem queue_grows_by_short_answers E (ops : list op) (w : world) :
  exists added,
    uncertain_queries (run_ops E ops w) = uncertain_queries w ++ added /\
    (length added <= length (asked ops))%nat /\
    Forall (fun case => In (fst case) (asked ops) /\ short_stripped case) added.
Proof.
  revert w. induction ops as [|o ops IH]; intro w.
  - exists []. simpl. rewrite app_nil_r. repeat split; [lia|constructor].
  - change (run_ops E (o :: ops) w) with (run_ops E ops (run_op E o w)).
    destruct (IH (run_op E o w)) as (added & Hq & Hlen & Hall).
    destruct o as [q|n|b]; simpl run_op in *.
    + destruct (generate_response_queue_cases E q w) as [Hsame|(answer & Hadd & Hshort)].
      * exists added. rewrite Hq, Hsame. split; [reflexivity|]. split.
        -- simpl. lia.
        -- eapply Forall_impl; [|exact Hall]. intros case [Hin Hs].
           split; [right; exact Hin|exact Hs].
      * exists ((q, answer) :: added). rewrite Hq, Hadd, <- app_assoc.
        split; [reflexivity|]. split.
        -- simpl. lia.
        -- constructor.
           ++ split; [left; reflexivity|exact Hshort].
           ++ eapply Forall_impl; [|exact Hall]. intros case [Hin Hs].
              split; [right; exact Hin|exact Hs].
    + exists added. rewrite Hq, cluster_preserves_queue. repeat split; assumption.
    + exists added. rewrite Hq, update_preserves_queue. repeat split; assumption.
Qed.

Lemma answer_phase_preserves_analytics E q :
  preserves analytics_system (answer_phase E q).
Proof. unfold answer_phase. frame_any. Qed.

Lemma record_uncertainty_preserves_analytics q raw :
  preserves analytics_system (record_uncertainty q raw).
Proof. unfold record_uncertainty, add_uncertain_query. frame_any. Qed.

Lemma analytics_phase_unfold E q t w :
  analytics_phase E q t w =
  let w1 := record ClockCall w in
  let w2 := record (SentimentCall q) w1 in
  match sentiment_analyzer E (history w1) q with
  | Raise e => (Raise e, w2)
  | Return results =>
      match getitem results 0 with
      | Raise e => (Raise e, w2)
      | Return first =>
          let a := analytics_system w in
          (Return tt,
           set_analytics_system
             (mkAnalytics (queries a ++ [q])
                          (response_times a ++ [(datetime_now E (history w) - t)%Q])
                          (sentiments a ++ [label first])
                          (topics a ++ ["General"])) w2)
      end
  end.
Proof.
  unfold analytics_phase, bind at 1. unfold now at 1, call at 1.
  unfold bind at 1. unfold analyze at 1, call at 1. cbv zeta.
  destruct (sentiment_analyzer E (history (record ClockCall w)) q) as [results|e];
    [|reflexivity].
  unfold bind, lift. destruct (getitem results 0) as [first|e]; reflexivity.
Qed.

Lemma generate_response_analytics E q w :
  (exists e,
     fst (generate_response E q w)
       = Return (String.append "An error occurred: " (str_exn e)) /\
     analytics_system (snd (generate_response E q w)) = analytics_system w) \/
  (exists response_time first rest,
     sentiment_analyzer E
       (history (record ClockCall
                   (snd (record_uncertainty q
                           (match fst (answer_phase E q (record ClockCall w)) with
                            | Return answer => fst answer
                            | Raise _ => ""
                            end)
                           (snd (answer_phase E q (record ClockCall w))))))) q
       = Return (first :: rest) /\
     analytics_system (snd (generate_response E q w))
       = mkAnalytics (queries (analytics_system w) ++ [q])
                     (response_times (analytics_system w) ++ [response_time])
                     (sentiments (analytics_system w) ++ [label first])
                     (topics (analytics_system w) ++ ["General"])).
Proof.
  rewrite generate_response_unfold, generate_body_unfold.
  pose proof (answer_phase_preserves_analytics E q (record ClockCall w)) as Ha.
  destruct (answer_phase E q (record ClockCall w)) as [[answer|e] w1]; simpl in Ha.
  - pose proof (record_uncertainty_preserves_analytics q (fst answer) w1) as Hr.
    simpl fst. simpl snd.
    set (w2 := snd (record_uncertainty q (fst answer) w1)) in *.
    rewrite analytics_phase_unfold. cbv zeta.
    destruct (sentiment_analyzer E (history (record ClockCall w2)) q)
      as [results|e] eqn:Hsent.
    + destruct results as [|first rest].
      * left. exists (IndexError "index out of range").
        split; [reflexivity|]. simpl. rewrite Hr, Ha. reflexivity.
      * right. simpl.
        exists (datetime_now E (history w2) - datetime_now E (history w))%Q, first, rest.
        split; [reflexivity|]. rewrite Hr, Ha. reflexivity.
    + left. simpl. exists e. split; [reflexivity|]. rewrite Hr, Ha. reflexivity.
  - left. simpl. exists e. split; [reflexivity|exact Ha].
Qed.

Lemma request_logged_or_failed_aux E q w :
  analytics_system (snd (generate_response E q w)) = analytics_system w \/
  (exists response_time sentiment,
     analytics_system (snd (generate_response E q w))
       = mkAnalytics (queries (analytics_system w) ++ [q])
                     (response_times (analytics_system w) ++ [response_time])
                     (sentiments (analytics_system w) ++ [sentiment])
                     (topics (analytics_system w) ++ ["General"])).
Proof.
  destruct (generate_response_analytics E q w)
    as [(e & _ & Hsame)|(rt & first & rest & _ & Hlog)].
  - left. exact Hsame.
  - right. exists rt, (label first). exact Hlog.
Qed.

(** X7. Every request either logs exactly one interaction, which carries the
    query and the topic "General", or ends in the message "An error
    occurred: ..." and leaves the analytics lists as they were: a failed
    request is never counted. *)
Theorem request_logged_or_failed E (query : string) (w : world) :
  (exists e,
     fst (generate_response E query w)
       = Return (String.append "An error occurred: " (str_exn e)) /\
     analytics_system (snd (generate_response E query w)) = analytics_system w) \/
  (exists response_time sentiment,
     analytics_system (snd (generate_response E query w))
       = mkAnalytics (queries (analytics_system w) ++ [query])
                     (response_times (analytics_system w) ++ [response_time])
                     (sentiments (analytics_system w) ++ [sentiment])
                     (topics (analytics_system w) ++ ["General"])).
Proof.
  destruct (generate_response_analytics E query w)
    as [Hfail|(rt & first & rest & _ & Hlog)].
  - left. exact Hfail.
  - right. exists rt, (label first). exact Hlog.
Qed.

(** X8. The sentiment written to the analytics is the label the analyzer
    gives, whatever its score: with an analyzer that answers [res] for this
    query, a request that is logged logs [label res], also when the score is
    at most 0.6 and the personalisation treated the query as "NEUTRAL". *)
Theorem logged_sentiment_is_raw_label E (query : string) (w : world)
    (res : sentiment_result) (rest : list sentiment_result) :
  (forall h, sentiment_analyzer E h query = Return (res :: rest)) ->
  (exists e,
     fst (generate_response E query w)
       = Return (String.append "An error occurred: " (str_exn e)) /\
     analytics_system (snd (generate_response E query w)) = analytics_system w) \/
  sentiments (analytics_system (snd (generate_response E query w)))
    = sentiments (analytics_system w) ++ [label res].
Proof.
  intro Hres.
  destruct (generate_response_analytics E query w)
    as [Hfail|(rt & first & rest' & Hsent & Hlog)].
  - left. exact Hfail.
  - right. rewrite Hres in Hsent. injection Hsent as <- _. rewrite Hlog. reflexivity.
Qed.

Lemma logged_sentiment_is_raw_label_witness :
  sentiments (analytics_system (snd (generate_response Demo.E_unsure "hi" Sample.w0)))
    = ["NEGATIVE"] /\
  fst (generate_response Demo.E_unsure "hi" Sample.w0) = Return "Please check our website.".
Proof.
  split; [|reflexivity].
  destruct (logged_sentiment_is_raw_label Demo.E_unsure "hi" Sample.w0
              (mkSentiment "NEGATIVE" (55 # 100)) [] (fun h => eq_refl))
    as [(e & Herr & _)|Hlog].
  - vm_compute in Herr. discriminate Herr.
  - exact Hlog.
Defined.

(** X9. The four analytics lists stay in step: after any run they still
    describe the same interactions if they did before, and the run has
    logged at most one interaction per query asked, each under a query of
    the run. *)
Theorem analytics_stay_aligned E (ops : list op) (w : world) :
  aligned (analytics_system w) ->
  aligned (analytics_system (run_ops E ops w)) /\
  exists logged,
    queries (analytics_system (run_ops E ops w)) = queries (analytics_system w) ++ logged /\
    (length logged <= length (asked ops))%nat /\
    Forall (fun q => In q (asked ops)) logged.
Proof.
  revert w. induction ops as [|o ops IH]; intros w Hal.
  - split; [exact Hal|]. exists []. simpl. rewrite app_nil_r.
    repeat split; [lia|constructor].
  - change (run_ops E (o :: ops) w) with (run_ops E ops (run_op E o w)).
    destruct o as [q|n|b]; simpl run_op.
    + destruct (request_logged_or_failed_aux E q w) as [Hsame|(rt & s & Hlog)].
      * destruct (IH (snd (generate_response E q w))) as (Hal' & logged & Hq & Hlen & Hall).
        { rewrite Hsame. exact Hal. }
        split; [exact Hal'|]. exists logged. rewrite Hq, Hsame.
        split; [reflexivity|]. split; [simpl; lia|].
        eapply Forall_impl; [|exact Hall]. intros x Hx. right. exact Hx.
      * destruct (IH (snd (generate_response E q w))) as (Hal' & logged & Hq & Hlen & Hall).
        { rewrite Hlog. destruct Hal as (H1 & H2 & H3). unfold aligned. simpl.
          repeat rewrite length_app. simpl. lia. }
        split; [exact Hal'|]. exists (q :: logged). rewrite Hq, Hlog. simpl.
        rewrite <- app_assoc. split; [reflexivity|]. split; [simpl; lia|].
        constructor; [left; reflexivity|].
        eapply Forall_impl; [|exact Hall]. intros x Hx. right. exact Hx.
    + destruct (IH (snd (cluster_uncertain_queries E n w))) as (Hal' & logged & Hq & Hrest).
      { rewrite cluster_preserves_analytics. exact Hal. }
      split; [exact Hal'|]. exists logged. rewrite Hq, cluster_preserves_analytics.
      split; [reflexivity|exact Hrest].
    + destruct (IH (snd (update_knowledge_base E b w))) as (Hal' & logged & Hq & Hrest).
      { rewrite update_preserves_analytics. exact Hal. }
      split; [exact Hal'|]. exists logged. rewrite Hq, update_preserves_analytics.
      split; [reflexivity|exact Hrest].
Qed.

Lemma analytics_stay_aligned_witness :
  aligned (analytics_system
             (run_ops Sample.E_up [Ask "hi"; Append ["Gift cards never expire."]; Ask "hours?"]
                      Sample.w0)).
Proof.
  apply (proj1 (analytics_stay_aligned Sample.E_up
                  [Ask "hi"; Append ["Gift cards never expire."]; Ask "hours?"] Sample.w0
                  (conj eq_refl (conj eq_refl eq_refl)))).
Defined.

Lemma knowledge_base_only_grows_witness :
  nth_error (knowledge_base
               (run_ops Sample.E_once
                  [Append ["Gift cards never expire."]; Ask "hi"; Append ["We ship worldwide."]]
                  Sample.w0)) 0
  = Some "Our store hours are 9 AM to 5 PM, Monday to Friday.".
Proof.
  apply (proj2 (knowledge_base_only_grows Sample.E_once
                  [Append ["Gift cards never expire."]; Ask "hi"; Append ["We ship worldwide."]]
                  Sample.w0) 0%nat).
  reflexivity.
Defined.

(** ** The best match *)

Lemma best_match_first_aux E (sims : list Q) (top_k : Z) :
  0 < top_k -> sims <> [] ->
  exists best rest,
    top_indices E sims top_k = best :: rest /\
    (best < length sims)%nat /\
    forall j, (j < length sims)%nat -> (sim_at sims j <= sim_at sims best)%Q.
Proof.
  intros Hk Hne.
  destruct (top_indices E sims top_k) as [|best rest] eqn:Hids.
  - exfalso. pose proof (top_indices_length E sims top_k) as Hlen.
    rewrite Hids in Hlen. apply Z.ltb_lt in Hk. rewrite Hk in Hlen.
    destruct sims; [congruence|]. simpl in Hlen. lia.
  - exists best, rest. split; [reflexivity|].
    assert (Hin : In best (top_indices E sims top_k)) by (rewrite Hids; left; reflexivity).
    split; [apply (top_indices_in_range E sims top_k), Hin|].
    intros j Hj.
    destruct (in_dec Nat.eq_dec j (top_indices E sims top_k)) as [Hjin|Hjout].
    + pose proof (top_indices_descending E sims top_k) as Hd.
      unfold descending in Hd. rewrite Hids in Hd, Hjin.
      apply StronglySorted_inv in Hd. destruct Hd as [_ Hf].
      destruct Hjin as [<-|Hjin]; [apply Qle_refl|].
      rewrite Forall_forall in Hf. apply Hf, Hjin.
    + apply (top_indices_highest E sims top_k best j Hin Hj Hjout).
Qed.

(** X10. On a non-empty paired index, for a positive [top_k], when ranking
    succeeds the first entry returned is one of greatest similarity among all
    stored entries; when one entry is strictly more similar than every
    other, it is that entry. *)
Theorem best_match_first E (query : string) (top_k : Z) (w : world)
    (sims : list Q) (ids : list nat) (w' : world) :
  0 < top_k ->
  paired w ->
  similarity_row_per_entry E ->
  knowledge_base w <> [] ->
  rank_entries E query top_k w = (Return (sims, ids), w') ->
  exists best rest,
    ids = best :: rest /\
    fst (retrieve_relevant_context E query top_k w)
      = Return (nth best (knowledge_base w) ""
                :: map (fun i => nth i (knowledge_base w) "") rest) /\
    (forall j, (j < length (knowledge_base w))%nat ->
               (sim_at sims j <= sim_at sims best)%Q) /\
    (forall i, (i < length (knowledge_base w))%nat ->
       (forall j, (j < length (knowledge_base w))%nat -> j <> i ->
                  (sim_at sims j < sim_at sims i)%Q) ->
       best = i).
Proof.
  intros Hk Hpaired Hc Hne Hrank.
  assert (Hlen : length sims = length (knowledge_base w)).
  { rewrite Hpaired. apply (rank_entries_row_length E query top_k w sims ids w' Hc Hrank). }
  pose proof (retrieve_returns_ranked E query top_k w sims ids w' Hrank Hlen) as Hret.
  apply rank_entries_inv in Hrank. destruct Hrank as (-> & _).
  destruct (best_match_first_aux E sims top_k Hk) as (best & rest & Hids & Hb & Hmax).
  { intros ->. apply Hne. destruct (knowledge_base w); [reflexivity|discriminate]. }
  exists best, rest. rewrite Hids in *. rewrite <- Hlen.
  split; [reflexivity|]. split; [exact Hret|]. split; [exact Hmax|].
  intros i Hi Hstrict. destruct (Nat.eq_dec best i) as [Heq|Hneq]; [exact Heq|].
  exfalso. specialize (Hstrict best Hb Hneq). specialize (Hmax i Hi).
  apply (Qlt_irrefl (sim_at sims i)). eapply Qle_lt_trans; eassumption.
Qed.

Lemma sample_w0_nonempty : knowledge_base Sample.w0 <> [].
Proof. discriminate. Qed.

Lemma best_match_first_witness :
  match fst (retrieve_relevant_context Sample.E_up "What are your hours?" 3 Sample.w0) with
  | Return (first :: _) =>
      first = "We offer refunds within 30 days of purchase with a valid receipt."
  | _ => False
  end.
Proof.
  destruct (best_match_first Sample.E_up "What are your hours?" 3 Sample.w0
              (map (Sample.dot (Sample.embed "What are your hours?"))
                   (knowledge_embeddings Sample.w0))
              [2%nat; 1%nat; 3%nat]
              (snd (rank_entries Sample.E_up "What are your hours?" 3 Sample.w0)))
    as (best & rest & Hids & Hret & _).
  - lia.
  - reflexivity.
  - exact similarity_row_per_entry_up.
  - exact sample_w0_nonempty.
  - vm_compute. reflexivity.
  - injection Hids as <- <-. rewrite Hret. reflexivity.
Defined.

(** X11. An appended text can be found at once: after an append of one text
    that returned, on an index whose provider gives one vector per text, if
    the new entry is strictly more similar to the query than every older
    entry, the next retrieval with a positive [top_k] returns it first. *)
Theorem appended_entry_found E (text query : string) (top_k : Z) (w : world)
    (sims : list Q) (ids : list nat) (w' : world) :
  0 < top_k ->
  encode_one_per_text (sentence_model_encode E) ->
  similarity_row_per_entry E ->
  is_raise (fst (update_knowledge_base E [text] w)) = false ->
  rank_entries E query top_k (snd (update_knowledge_base E [text] w))
    = (Return (sims, ids), w') ->
  (forall j, (j < length (knowledge_base w))%nat ->
             (sim_at sims j < sim_at sims (length (knowledge_base w)))%Q) ->
  exists rest,
    fst (retrieve_relevant_context E query top_k (snd (update_knowledge_base E [text] w)))
    = Return (text :: rest).
Proof.
  intros Hk Henc Hc Hret Hrank Hnew.
  pose proof (update_return_pairs E [text] w Henc Hret) as Hpaired.
  pose proof (update_knowledge_base_entries E [text] w) as Hkb.
  set (w1 := snd (update_knowledge_base E [text] w)) in *.
  assert (Hlen : length sims = length (knowledge_base w1)).
  { rewrite Hpaired. apply (rank_entries_row_length E query top_k w1 sims ids w' Hc Hrank). }
  pose proof (retrieve_returns_ranked E query top_k w1 sims ids w' Hrank Hlen) as Hout.
  apply rank_entries_inv in Hrank. destruct Hrank as (-> & _).
  destruct (best_match_first_aux E sims top_k Hk) as (best & rest & Hids & Hb & Hmax).
  { intros ->. rewrite Hkb, length_app in Hlen. simpl in Hlen. lia. }
  assert (Hbest : best = length (knowledge_base w)).
  { rewrite Hlen, Hkb, length_app in Hb. simpl in Hb.
    destruct (Nat.eq_dec best (length (knowledge_base w))) as [Heq|Hneq]; [exact Heq|].
    exfalso. assert (Hlt : (best < length (knowledge_base w))%nat) by lia.
    specialize (Hnew best Hlt).
    assert (Hle : (sim_at sims (length (knowledge_base w)) <= sim_at sims best)%Q).
    { apply Hmax. rewrite Hlen, Hkb, length_app. simpl. lia. }
    apply (Qlt_irrefl (sim_at sims best)). eapply Qlt_le_trans; eassumption. }
  rewrite Hout, Hids. simpl. rewrite Hbest, Hkb.
  rewrite app_nth2; [|lia]. rewrite Nat.sub_diag. simpl. eauto.
Qed.

Lemma appended_entry_found_witness :
  match fst (retrieve_relevant_context Sample.E_up "zero interest?" 2
               (snd (update_knowledge_base Sample.E_up [Demo.financing] Sample.w0))) with
  | Return (first :: _) => first = Demo.financing
  | _ => False
  end.
Proof.
  destruct (appended_entry_found Sample.E_up Demo.financing "zero interest?" 2 Sample.w0
              (map (Sample.dot (Sample.embed "zero interest?"))
                   (map Sample.embed (initial_knowledge_base ++ [Demo.financing])))
              [5%nat; 2%nat]
              (snd (rank_entries Sample.E_up "zero interest?" 2
                      (snd (update_knowledge_base Sample.E_up [Demo.financing] Sample.w0)))))
    as [rest Hret].
  - lia.
  - exact encode_up_one_per_text.
  - exact similarity_row_per_entry_up.
  - reflexivity.
  - vm_compute. reflexivity.
  - intros j Hj. simpl in Hj.
    destruct j as [|[|[|[|[|j]]]]]; [vm_compute; reflexivity ..|lia].
  - rewrite Hret. reflexivity.
Defined.

(** ** Curation: what comes back *)

Lemma traverse_Forall {A B} (f : A -> outcome B) (l : list A) (out : list B) :
  traverse f l = Return out ->
  Forall (fun y => exists x, In x l /\ f x = Return y) out.
Proof.
  revert out. induction l as [|a l IH]; simpl; intros out H.
  - injection H as <-. constructor.
  - destruct (f a) as [y|e] eqn:Hf; simpl in H; [|discriminate].
    destruct (traverse f l) as [ys|e]; simpl in H; [|discriminate].
    injection H as <-. constructor.
    + exists a. split; [left; reflexivity|exact Hf].
    + eapply Forall_impl; [|apply (IH ys eq_refl)].
      intros z (x & Hx & Hz). exists x. split; [right; exact Hx|exact Hz].
Qed.

Lemma representative_is_queued E uq embeddings fit i case :
  representative E uq embeddings fit i = Return case ->
  In case uq /\ exists r, nth_error uq r = Some case /\ nth_error (labels_ fit) r = Some i.
Proof.
  unfold representative.
  destruct (getitem (cluster_centers_ fit) i) as [center|e]; simpl; [|discriminate].
  destruct (traverse (getitem embeddings) (where_eq (labels_ fit) i)) as [members|e];
    simpl; [|discriminate].
  destruct (argmin _) as [a|e]; simpl; [|discriminate].
  unfold getitem at 1.
  destruct (nth_error (where_eq (labels_ fit) i) a) as [r|] eqn:Hr; simpl; [|discriminate].
  unfold getitem. destruct (nth_error uq r) as [c|] eqn:Hc; [|discriminate].
  intro H. injection H as <-. split.
  - eapply nth_error_In. exact Hc.
  - exists r. split; [exact Hc|]. apply where_eq_spec. eapply nth_error_In. exact Hr.
Qed.

(** X12. Whatever the provider and the clustering routine answer, when the
    curation pass returns, every case it returns is a case of the queue: in
    the short-circuit the queue itself, otherwise [n_clusters] cases, the one
    at place [i] being a queued case that the fit labels [i]. It never makes
    up a case. *)
Theorem representatives_are_queued E (n_clusters : Z) (w : world)
    (reps : list (string * string)) :
  fst (cluster_uncertain_queries E n_clusters w) = Return reps ->
  Forall (fun case => In case (uncertain_queries w)) reps /\
  (Z.of_nat (length (uncertain_queries w)) < n_clusters -> reps = uncertain_queries w) /\
  (n_clusters <= Z.of_nat (length (uncertain_queries w)) ->
   length reps = Z.to_nat n_clusters /\
   exists embeddings fit,
     self_sentence_model_encode E (history w) (map fst (uncertain_queries w))
       = Return embeddings /\
     KMeans_fit E (history w ++ [SelfEncodeCall (map fst (uncertain_queries w))])
       n_clusters embeddings = Return fit /\
     forall i case, nth_error reps i = Some case ->
       exists r, nth_error (uncertain_queries w) r = Some case /\
                 nth_error (labels_ fit) r = Some i).
Proof.
  rewrite cluster_uncertain_queries_unfold. cbv zeta.
  destruct (Z.ltb_spec (Z.of_nat (length (uncertain_queries w))) n_clusters) as [Hlt|Hge].
  - simpl. intro H. injection H as <-. split; [|split].
    + rewrite Forall_forall. trivial.
    + reflexivity.
    + lia.
  - destruct (self_sentence_model_encode E (history w) (map fst (uncertain_queries w)))
      as [embeddings|e]; [|discriminate].
    simpl history.
    destruct (KMeans_fit E _ n_clusters embeddings) as [fit|e] eqn:Hfit; [|discriminate].
    simpl fst. intro Htr.
    assert (Hlen : length reps = Z.to_nat n_clusters).
    { rewrite (traverse_length _ _ _ Htr). unfold range. apply length_seq. }
    split; [|split].
    + eapply Forall_impl; [|apply (traverse_Forall _ _ _ Htr)].
      intros case (i & _ & Hi). apply (representative_is_queued _ _ _ _ _ _ Hi).
    + lia.
    + intros _. split; [exact Hlen|].
      exists embeddings, fit. split; [reflexivity|]. split; [exact Hfit|].
      intros i case Hn.
      assert (Hi : (i < Z.to_nat n_clusters)%nat).
      { rewrite <- Hlen. apply nth_error_Some. congruence. }
      destruct (traverse_nth_error _ _ _ i i Htr) as (y & Hy & Hfy).
      { unfold range. rewrite nth_error_seq.
        destruct (Nat.ltb_spec i (Z.to_nat n_clusters)); [reflexivity|lia]. }
      assert (y = case) by congruence. subst y.
      apply (representative_is_queued _ _ _ _ _ _ Hfy).
Qed.

Lemma representatives_are_queued_witness :
  Forall (fun case => In case Sample.three_cases) [("a", "x"); ("bb", "y")].
Proof.
  apply (proj1 (representatives_are_queued Sample.E_up 2
                  (Sample.with_queue Sample.three_cases) [("a", "x"); ("bb", "y")]
                  eq_refl)).
Defined.

(** ** The index over whole runs *)

(** X13. After any run, the index is paired as soon as the last append of
    the run returned (with a provider that gives one vector per text),
    whatever happened before it, earlier failed appends included, and
    whatever queries and curation passes follow it. *)
Theorem paired_after_last_append E (before : list op) (new_entries : list string)
    (after : list op) (w : world) :
  encode_one_per_text (sentence_model_encode E) ->
  is_raise (fst (update_knowledge_base E new_entries (run_ops E before w))) = false ->
  Forall (fun o => match o with Append _ => False | _ => True end) after ->
  paired (run_ops E (before ++ Append new_entries :: after) w).
Proof.
  intros Hc Hret Hafter. rewrite run_ops_app.
  change (run_ops E (Append new_entries :: after) (run_ops E before w))
    with (run_ops E after (snd (update_knowledge_base E new_entries (run_ops E before w)))).
  apply (index_untouched_aux E after _ Hafter).
  apply update_return_pairs; assumption.
Qed.

Lemma paired_after_last_append_witness :
  paired (run_ops Sample.E_up
            ([Ask "hi"; Append ["Gift cards never expire."]]
             ++ Append [] :: [Ask "hours?"; Curate 5]) Sample.w0).
Proof.
  apply (paired_after_last_append Sample.E_up
           [Ask "hi"; Append ["Gift cards never expire."]] [] [Ask "hours?"; Curate 5]
           Sample.w0).
  - exact encode_up_one_per_text.
  - reflexivity.
  - repeat constructor.
Defined.

Lemma update_indexed_by E f new_entries w :
  encodes_with f (sentence_model_encode E) ->
  knowledge_embeddings (snd (update_knowledge_base E new_entries w))
    = map f (knowledge_base w ++ new_entries) /\
  fst (update_knowledge_base E new_entries w) = Return tt.
Proof.
  intro Hf. rewrite update_knowledge_base_unfold. cbv zeta. rewrite Hf.
  split; reflexivity.
Qed.

(** X14. With a provider that always answers and gives each text the same
    vector every time, an index whose rows are the vectors of its entries
    keeps that through any run: an append returns and adds the vectors of
    the new texts after the old rows, which stay as they were; so the index
    stays paired and row [i] always belongs to entry [i]. *)
Theorem rows_follow_entries E (f : string -> vec) (ops : list op) (w : world) :
  encodes_with f (sentence_model_encode E) ->
  indexed_by f w ->
  indexed_by f (run_ops E ops w) /\
  knowledge_embeddings (run_ops E ops w) = knowledge_embeddings w ++ map f (appended ops) /\
  paired (run_ops E ops w).
Proof.
  intros Hf Hw.
  assert (H : indexed_by f (run_ops E ops w) /\
              knowledge_base (run_ops E ops w) = knowledge_base w ++ appended ops).
  { revert w Hw. induction ops as [|o ops IH]; intros w Hw.
    - simpl. rewrite app_nil_r. split; [exact Hw|reflexivity].
    - change (run_ops E (o :: ops) w) with (run_ops E ops (run_op E o w)).
      assert (Hstep : indexed_by f (run_op E o w) /\
                      knowledge_base (run_op E o w) =
                      knowledge_base w ++ appended [o]).
      { unfold indexed_by. destruct o as [q|n|b]; simpl.
        - rewrite generate_response_preserves_embeddings,
            generate_response_preserves_knowledge_base, app_nil_r.
          split; [exact Hw|reflexivity].
        - rewrite cluster_preserves_embeddings, cluster_preserves_knowledge_base, app_nil_r.
          split; [exact Hw|reflexivity].
        - rewrite update_knowledge_base_entries, app_nil_r.
          split; [apply (update_indexed_by E f b w Hf)|reflexivity]. }
      destruct Hstep as [Hi Hkb]. destruct (IH _ Hi) as [Hi' Hkb'].
      split; [exact Hi'|]. rewrite Hkb', Hkb. simpl appended.
      rewrite app_nil_r, <- app_assoc. reflexivity. }
  destruct H as [Hi Hkb]. split; [exact Hi|]. split.
  - rewrite Hi, Hkb, map_app, <- Hw. reflexivity.
  - unfold paired. rewrite Hi, length_map. reflexivity.
Qed.

Lemma encodes_with_embed : encodes_with Sample.embed Sample.encode_up.
Proof. intros h texts. reflexivity. Qed.

Lemma rows_follow_entries_witness :
  knowledge_embeddings
    (run_ops Sample.E_up [Append ["Gift cards never expire."]; Ask "hi"; Append ["We ship."]]
       Sample.w0)
  = knowledge_embeddings Sample.w0
    ++ map Sample.embed ["Gift cards never expire."; "We ship."].
Proof.
  apply (proj1 (proj2 (rows_follow_entries Sample.E_up Sample.embed
                         [Append ["Gift cards never expire."]; Ask "hi"; Append ["We ship."]]
                         Sample.w0 encodes_with_embed eq_refl))).
Defined.

(** ** Degrading gracefully, end to end *)

Lemma retrieve_provider_down E q k w :
  is_raise (sentence_model_encode E (history w) [q]) = true ->
  exists e,
    retrieve_relevant_context E q k w =
    (Return [],
     record (LogError (String.append "Error in retrieve_relevant_context: " (str_exn e)))
            (record (EncodeCall [q]) w)).
Proof.
  intro Hdown.
  rewrite retrieve_relevant_context_unfold, retrieve_body_unfold, rank_entries_unfold.
  cbv zeta.
  destruct (sentence_model_encode E (history w) [q]) as [qe|e]; [discriminate|].
  exists e. reflexivity.
Qed.

Lemma record_uncertainty_history q raw w :
  history (snd (record_uncertainty q raw w)) = history w.
Proof.
  unfold record_uncertainty. destruct (evaluate_certainty q raw); reflexivity.
Qed.

(** X15. With the embedding provider down, a request still reaches the chat
    model: it is asked the question with an empty context, and when it
    answers, and the analyzer gives a score of at most 0.6, the caller gets
    the stripped answer and not an error message. *)
Theorem answers_without_context E (query content : string) (w : world)
    (res : sentiment_result) (rest : list sentiment_result) :
  (forall h texts, is_raise (sentence_model_encode E h texts) = true) ->
  (forall h c, chat_completions_create E h c = Return content) ->
  (forall h, sentiment_analyzer E h query = Return (res :: rest)) ->
  (score res <= 6 # 10)%Q ->
  fst (generate_response E query w) = Return (strip content) /\
  In (ChatCall (user_content_of "" query)) (history (snd (generate_response E query w))).
Proof.
  intros Hdown Hchat Hsent Hlow.
  rewrite generate_response_unfold, generate_body_unfold, answer_phase_unfold. cbv zeta.
  destruct (retrieve_provider_down E query 2 (record ClockCall w) (Hdown _ _)) as [e Hr].
  rewrite Hr. simpl fst. simpl snd. rewrite Hchat.
  rewrite (personalize_neutral_aux E query (strip content) _ res rest (Hsent _)
             (or_introl Hlow)).
  simpl fst. simpl snd.
  rewrite analytics_phase_unfold. cbv zeta. rewrite Hsent.
  change (getitem (res :: rest) 0) with (Return res). cbv iota. simpl fst. simpl snd.
  split; [reflexivity|].
  simpl history. rewrite record_uncertainty_history. simpl history.
  apply in_or_app. left. apply in_or_app. left. apply in_or_app. left.
  apply in_or_app. right. left. reflexivity.
Qed.

Lemma answers_without_context_witness :
  fst (generate_response Demo.E_blind "hi" Sample.w0) = Return "Please check our website.".
Proof.
  apply (proj1 (answers_without_context Demo.E_blind "hi" " Please check our website. "
                  Sample.w0 (mkSentiment "NEGATIVE" (55 # 100)) []
                  (fun h texts => eq_refl) (fun h c => eq_refl) (fun h => eq_refl)
                  ltac:(vm_compute; discriminate))).
Defined.

(** X16. A retrieval touches nothing but the history: the knowledge base, the
    embeddings, the queue and the analytics are as before. It calls the
    embedding provider once, with the query alone; when it succeeds it
    writes no error record, and when a step raises it writes exactly one,
    carrying the text of the exception, as the last record. *)
Theorem retrieve_only_writes_history E (query : string) (top_k : Z) (w : world) :
  knowledge_base (snd (retrieve_relevant_context E query top_k w)) = knowledge_base w /\
  knowledge_embeddings (snd (retrieve_relevant_context E query top_k w))
    = knowledge_embeddings w /\
  uncertain_queries (snd (retrieve_relevant_context E query top_k w))
    = uncertain_queries w /\
  analytics_system (snd (retrieve_relevant_context E query top_k w)) = analytics_system w /\
  match fst (retrieve_body E query top_k w) with
  | Return _ =>
      history (snd (retrieve_relevant_context E query top_k w))
        = history w ++ [EncodeCall [query]; CosineCall]
  | Raise e =>
      let record_ :=
        LogError (String.append "Error in retrieve_relevant_context: " (str_exn e)) in
      history (snd (retrieve_relevant_context E query top_k w))
        = history w ++ [EncodeCall [query]; record_] \/
      history (snd (retrieve_relevant_context E query top_k w))
        = history w ++ [EncodeCall [query]; CosineCall; record_]
  end.
Proof.
  split; [apply retrieve_preserves_knowledge_base|].
  split; [apply retrieve_preserves_embeddings|].
  split; [apply retrieve_preserves_queue|].
  split; [apply retrieve_preserves_analytics|].
  rewrite retrieve_relevant_context_unfold, retrieve_body_unfold, rank_entries_unfold.
  cbv zeta.
  destruct (sentence_model_encode E (history w) [query]) as [qe|e].
  - destruct (cosine_similarity E qe (knowledge_embeddings w)) as [rows|e].
    + destruct (getitem rows 0) as [sims|e].
      * simpl. destruct (traverse _ _) as [out|e]; simpl.
        -- rewrite <- app_assoc. reflexivity.
        -- right. repeat rewrite <- app_assoc. reflexivity.
      * simpl. right. repeat rewrite <- app_assoc. reflexivity.
    + simpl. right. repeat rewrite <- app_assoc. reflexivity.
  - simpl. left. rewrite <- app_assoc. reflexivity.
Qed.

(** ** The report *)

Lemma generate_report_unfold R start_date end_date w :
  generate_report R start_date end_date w =
  (obind (report_frame (analytics_system w) start_date end_date)
     (fun df =>
        obind (plot_daily_volume R (map row_timestamp df))
          (fun _ =>
             obind (plot_response_times R (map row_response_time df))
               (fun _ =>
                  obind (plot_sentiments R (Counter (map row_sentiment df)))
                    (fun _ =>
                       obind (unpack_pairs (most_common 5 (Counter (map row_topic df))))
                         (fun unpacked =>
                            obind (plot_topics R (fst unpacked) (snd unpacked))
                              (fun _ =>
                                 report_text R start_date end_date df
                                   (Counter (map row_sentiment df))
                                   (most_common 5 (Counter (map row_topic df))))))))),
   w).
Proof.
  unfold generate_report, bind, gets, lift. simpl.
  destruct (report_frame (analytics_system w) start_date end_date) as [df|e];
    [|reflexivity]. simpl.
  destruct (plot_daily_volume R _) as [[]|e]; [|reflexivity]. simpl.
  destruct (plot_response_times R _) as [[]|e]; [|reflexivity]. simpl.
  destruct (plot_sentiments R _) as [[]|e]; [|reflexivity]. simpl.
  destruct (unpack_pairs _) as [unpacked|e]; [|reflexivity]. simpl.
  destruct (plot_topics R _ _) as [[]|e]; reflexivity.
Qed.

Lemma empty_frame_raises R start_date end_date w :
  report_frame (analytics_system w) start_date end_date = Return [] ->
  is_raise (fst (generate_report R start_date end_date w)) = true.
Proof.
  intro Hdf. rewrite generate_report_unfold, Hdf. simpl.
  destruct (plot_daily_volume R []) as [[]|e]; [|reflexivity]. simpl.
  destruct (plot_response_times R []) as [[]|e]; [|reflexivity]. simpl.
  destruct (plot_sentiments R _) as [[]|e]; reflexivity.
Qed.

Lemma rows_from_window_closed i start_date end_date qs rts ss ts :
  (end_date < start_date)%Q ->
  filter (in_window start_date end_date) (rows_from i start_date qs rts ss ts) = [].
Proof.
  intro Hlt. revert i rts ss ts.
  induction qs as [|q qs IH]; intros i rts ss ts; [reflexivity|].
  destruct rts as [|rt rts]; [reflexivity|].
  destruct ss as [|s0 ss]; [reflexivity|].
  destruct ts as [|t ts]; [reflexivity|].
  simpl. rewrite IH.
  unfold in_window. simpl row_timestamp.
  destruct (Qle_bool start_date (start_date + hour * inject_Z (Z.of_nat i))) eqn:H1;
    [|reflexivity].
  destruct (Qle_bool (start_date + hour * inject_Z (Z.of_nat i)) end_date) eqn:H2;
    [|reflexivity].
  apply Qle_bool_iff in H1, H2. exfalso.
  apply (Qlt_irrefl start_date). eapply Qle_lt_trans; [|exact Hlt].
  eapply Qle_trans; eassumption.
Qed.

Lemma generate_report_empty_raises R start_date end_date w :
  queries (analytics_system w) = [] \/ (end_date < start_date)%Q ->
  is_raise (fst (generate_report R start_date end_date w)) = true.
Proof.
  intro Hempty.
  destruct (report_frame (analytics_system w) start_date end_date) as [df|e] eqn:Hdf.
  - apply empty_frame_raises. rewrite Hdf. f_equal.
    unfold report_frame, data_frame in Hdf.
    destruct (_ && _ && _)%bool; simpl in Hdf; [|discriminate].
    injection Hdf as <-. destruct Hempty as [Hq|Hlt].
    + rewrite Hq. reflexivity.
    + apply rows_from_window_closed. exact Hlt.
  - rewrite generate_report_unfold, Hdf. reflexivity.
Qed.

(** X17. A report needs an interaction in its window: with no interaction
    logged, or with an end date before the start date, [generate_report]
    raises instead of returning an empty report, whatever the plotting calls
    do; the world is left as it was. *)
Theorem report_needs_an_interaction (R : reporting) (start_date end_date : Q) (w : world) :
  queries (analytics_system w) = [] \/ (end_date < start_date)%Q ->
  is_raise (fst (generate_report R start_date end_date w)) = true /\
  snd (generate_report R start_date end_date w) = w.
Proof.
  intro Hempty. split.
  - apply generate_report_empty_raises. exact Hempty.
  - rewrite generate_report_unfold. reflexivity.
Qed.

Lemma report_needs_an_interaction_witness :
  is_raise (fst (generate_report Page.R_plain 0 thirty_days Sample.w0)) = true.
Proof.
  apply (proj1 (report_needs_an_interaction Page.R_plain 0 thirty_days Sample.w0
                  (or_introl eq_refl))).
Defined.

Lemma rows_from_thirty_days i start_date end_date qs rts ss ts :
  (end_date - start_date == thirty_days)%Q ->
  filter (in_window start_date end_date) (rows_from i start_date qs rts ss ts)
    = firstn (721 - i) (rows_from i start_date qs rts ss ts).
Proof.
  intro Hspan. revert i rts ss ts.
  induction qs as [|q qs IH]; intros i rts ss ts.
  { simpl. rewrite firstn_nil. reflexivity. }
  destruct rts as [|rt rts]; [simpl; rewrite firstn_nil; reflexivity|].
  destruct ss as [|s0 ss]; [simpl; rewrite firstn_nil; reflexivity|].
  destruct ts as [|t ts]; [simpl; rewrite firstn_nil; reflexivity|].
  cbn [rows_from filter]. rewrite IH.
  unfold in_window. cbn [row_timestamp].
  assert (H1 : Qle_bool start_date (start_date + hour * inject_Z (Z.of_nat i)) = true).
  { apply Qle_bool_iff.
    assert (0 <= inject_Z (Z.of_nat i))%Q.
    { change 0%Q with (inject_Z 0). rewrite <- Zle_Qle. lia. }
    unfold hour. lra. }
  rewrite H1. cbn [andb].
  destruct (Nat.le_gt_cases i 720) as [Hin|Hout].
  - assert (H2 : Qle_bool (start_date + hour * inject_Z (Z.of_nat i)) end_date = true).
    { apply Qle_bool_iff.
      assert (inject_Z (Z.of_nat i) <= 720)%Q.
      { change 720%Q with (inject_Z 720). rewrite <- Zle_Qle. lia. }
      unfold hour, thirty_days in *. lra. }
    rewrite H2. replace (721 - i)%nat with (S (721 - S i)) by lia. reflexivity.
  - assert (H2 : Qle_bool (start_date + hour * inject_Z (Z.of_nat i)) end_date = false).
    { destruct (Qle_bool _ end_date) eqn:Hb; [|reflexivity].
      apply Qle_bool_iff in Hb. exfalso.
      assert (721 <= inject_Z (Z.of_nat i))%Q.
      { change 721%Q with (inject_Z 721). rewrite <- Zle_Qle. lia. }
      unfold hour, thirty_days in *. lra. }
    rewrite H2. replace (721 - i)%nat with O by lia.
    replace (721 - S i)%nat with O by lia. reflexivity.
Qed.

(** X18. The window of the report goes by position, not by time: the frame
    stamps the interaction logged at place [i] with the start date plus [i]
    hours, so with the thirty days that [main] asks for, the report is made
    from the first 721 interactions ever logged and from no later one,
    whenever they took place. *)
Theorem report_covers_first_721 (a : AnalyticsSystem) (start_date end_date : Q) :
  aligned a ->
  (end_date - start_date == thirty_days)%Q ->
  exists frame,
    data_frame a start_date = Return frame /\
    length frame = length (queries a) /\
    map row_query frame = queries a /\
    report_frame a start_date end_date = Return (firstn 721 frame).
Proof.
  intros (H1 & H2 & H3) Hspan.
  exists (rows_from 0 start_date (queries a) (response_times a) (sentiments a) (topics a)).
  assert (Hframe : data_frame a start_date =
                   Return (rows_from 0 start_date (queries a) (response_times a)
                                     (sentiments a) (topics a))).
  { unfold data_frame. rewrite H1, H2, H3, Nat.eqb_refl. reflexivity. }
  assert (Hrows : forall i qs rts ss ts,
             length rts = length qs -> length ss = length qs -> length ts = length qs ->
             length (rows_from i start_date qs rts ss ts) = length qs /\
             map row_query (rows_from i start_date qs rts ss ts) = qs).
  { intros i qs. revert i. induction qs as [|q qs IH]; intros i rts ss ts Hr Hs Ht.
    - split; reflexivity.
    - destruct rts as [|rt rts]; [discriminate|].
      destruct ss as [|s0 ss]; [discriminate|].
      destruct ts as [|t ts]; [discriminate|].
      simpl in *. destruct (IH (S i) rts ss ts) as [Hl Hm]; try lia.
      rewrite Hl, Hm. split; reflexivity. }
  destruct (Hrows 0%nat _ _ _ _ H1 H2 H3) as [Hl Hm].
  split; [exact Hframe|]. split; [exact Hl|]. split; [exact Hm|].
  unfold report_frame. rewrite Hframe. simpl obind.
  rewrite (rows_from_thirty_days 0 start_date end_date _ _ _ _ Hspan). reflexivity.
Qed.

Lemma report_covers_first_721_witness :
  match report_frame Page.busy 0 thirty_days with
  | Return df => length df = 721%nat
  | Raise _ => False
  end.
Proof.
  destruct (report_covers_first_721 Page.busy 0 thirty_days) as (frame & _ & Hl & _ & Hr).
  - repeat split.
  - reflexivity.
  - rewrite Hr, length_firstn, Hl. reflexivity.
Defined.

(** ** The chat page *)

Lemma lower_nonempty (text : string) :
  lower text = "generate report" -> text <> EmptyString.
Proof. intros H ->. discriminate H. Qed.

Lemma generate_response_returns E q w :
  exists response, fst (generate_response E q w) = Return response.
Proof.
  rewrite generate_response_unfold.
  destruct (generate_body E q _ _) as [[s|e] w1]; simpl; eauto.
Qed.

(** X19. A chat round: for a text that is not empty and is not "generate
    report" in any letter case, [main] returns, the world is the one
    [generate_response] leaves, and the chat history is the one before
    followed by the user's text and then the assistant's reply, which is
    what [generate_response] returned. *)
Theorem chat_round E (R : reporting) (text : string) (s : app) :
  text <> EmptyString ->
  lower text <> "generate report" ->
  exists response,
    fst (generate_response E text (app_world s)) = Return response /\
    fst (main E R (Some text) s) = Return tt /\
    app_world (snd (main E R (Some text) s)) = snd (generate_response E text (app_world s)) /\
    chat_history (snd (main E R (Some text) s))
      = Some ((match chat_history s with Some h => h | None => [] end)
              ++ [("user", text); ("assistant", response)]).
Proof.
  intros Hne Hcmd.
  destruct (generate_response_returns E text (app_world s)) as [response Hret].
  exists response. split; [exact Hret|].
  unfold main. destruct text as [|c text]; [congruence|].
  apply String.eqb_neq in Hcmd. rewrite Hcmd.
  destruct (generate_response E (String c text) (app_world s)) as [o w1].
  simpl in Hret. subst o. simpl. rewrite <- app_assoc. repeat split.
Qed.

Lemma chat_round_witness :
  chat_history (snd (main Sample.E_up Page.R_plain (Some "hi") Page.fresh))
  = Some [("user", "hi");
          ("assistant",
           "I understand your frustration. Please check our website. We'll do our best to help you.")].
Proof.
  destruct (chat_round Sample.E_up Page.R_plain "hi" Page.fresh) as (response & Hr & _ & _ & Hh).
  - discriminate.
  - discriminate.
  - rewrite Hh. vm_compute in Hr. injection Hr as <-. reflexivity.
Defined.

(** X20. The report command before anything was logged: for a text that is
    "generate report" in any letter case, when no interaction has been
    logged, [main] raises; the user's text has already been put on the chat
    history, no reply follows it, and nothing is logged. *)
Theorem report_command_fails_when_nothing_logged E (R : reporting) (text : string) (s : app) :
  lower text = "generate report" ->
  queries (analytics_system (app_world s)) = [] ->
  is_raise (fst (main E R (Some text) s)) = true /\
  chat_history (snd (main E R (Some text) s))
    = Some ((match chat_history s with Some h => h | None => [] end) ++ [("user", text)]) /\
  analytics_system (app_world (snd (main E R (Some text) s)))
    = analytics_system (app_world s).
Proof.
  intros Hcmd Hempty.
  pose proof (lower_nonempty text Hcmd) as Hne.
  unfold main. destruct text as [|c text]; [congruence|].
  rewrite Hcmd. change (String.eqb "generate report" "generate report") with true.
  cbv iota.
  pose proof (generate_report_empty_raises R
                (datetime_now E (history (app_world s)) - thirty_days)%Q
                (datetime_now E (history (app_world s)))
                (record ClockCall (app_world s)) (or_introl Hempty)) as Hraise.
  pose proof (generate_report_unfold R
                (datetime_now E (history (app_world s)) - thirty_days)%Q
                (datetime_now E (history (app_world s)))
                (record ClockCall (app_world s))) as Hw.
  destruct (generate_report R _ _ (record ClockCall (app_world s))) as [[report|e] w2];
    simpl in Hraise; [discriminate|].
  injection Hw as _ ->. simpl. repeat split.
Qed.

Lemma report_command_fails_when_nothing_logged_witness :
  is_raise (fst (main Sample.E_up Page.R_plain (Some "Generate report") Page.fresh)) = true /\
  chat_history (snd (main Sample.E_up Page.R_plain (Some "Generate report") Page.fresh))
    = Some [("user", "Generate report")].
Proof.
  destruct (report_command_fails_when_nothing_logged Sample.E_up Page.R_plain
              "Generate report" Page.fresh eq_refl eq_refl) as (Hr & Hh & _).
  split; [exact Hr|exact Hh].
Defined.

(** X21. The chat history is only ever appended to: whatever the input and
    whether [main] returns or raises, the history after the run is the one
    before followed by at most two messages, and when a message was added
    the first one is the user's text. An empty input adds nothing and
    leaves the world alone. *)
Theorem chat_history_append_only E (R : reporting) (user_input : option string) (s : app) :
  exists added,
    chat_history (snd (main E R user_input s))
      = Some ((match chat_history s with Some h => h | None => [] end) ++ added) /\
    (length added <= 2)%nat /\
    (forall m, nth_error added 0 = Some m ->
               exists text, user_input = Some text /\ m = ("user", text)) /\
    (user_input = None \/ user_input = Some EmptyString ->
     added = [] /\ app_world (snd (main E R user_input s)) = app_world s /\
     fst (main E R user_input s) = Return tt).
Proof.
  unfold main. destruct user_input as [[|c text]|].
  - exists []. rewrite app_nil_r. simpl. repeat split; try lia.
    intros m Hm. discriminate Hm.
  - destruct (String.eqb (lower (String c text)) "generate report").
    + destruct (generate_report R _ _ _) as [[report|e] w2]; simpl.
      * eexists [_; _]. rewrite <- app_assoc. simpl. split; [reflexivity|].
        split; [lia|]. split.
        -- intros m Hm. injection Hm as <-. eauto.
        -- intros [H|H]; discriminate H.
      * eexists [_]. simpl. split; [reflexivity|]. split; [lia|]. split.
        -- intros m Hm. injection Hm as <-. eauto.
        -- intros [H|H]; discriminate H.
    + destruct (generate_response E _ _) as [[response|e] w1]; simpl.
      * eexists [_; _]. rewrite <- app_assoc. simpl. split; [reflexivity|].
        split; [lia|]. split.
        -- intros m Hm. injection Hm as <-. eauto.
        -- intros [H|H]; discriminate H.
      * eexists [_]. simpl. split; [reflexivity|]. split; [lia|]. split.
        -- intros m Hm. injection Hm as <-. eauto.
        -- intros [H|H]; discriminate H.
  - exists []. rewrite app_nil_r. simpl. repeat split; try lia.
    intros m Hm. discriminate Hm.
Qed.

Lemma chat_history_append_only_witness :
  app_world (snd (main Sample.E_up Page.R_plain None Page.fresh)) = app_world Page.fresh.
Proof.
  destruct (chat_history_append_only Sample.E_up Page.R_plain None Page.fresh)
    as (added & _ & _ & _ & Hidle).
  apply Hidle. left. reflexivity.
Defined.
